(** * The friendship and like core of the social-media app

    A shallow embedding of
    - the schema, row-level-security policies and counter functions of
      [supabase/migrations/*.sql], as a store of four tables with the
      statements that the screens send to it, and
    - the handlers of the friends, home, reels and user-profile screens
      ([loadFriends], [loadRequests], [searchUsers], [sendFriendRequest],
      [acceptRequest], [rejectRequest], [removeFriend], [handleLike],
      [handleFriendAction]), as programs that issue those statements one
      after the other and look (or do not look) at the answers. *)

From Stdlib Require Import List ZArith NArith String Ascii Bool Lia.
Import ListNotations.

Set Implicit Arguments.

(** ** Values *)

(** A [uuid] column or TypeScript id: the 128-bit value as a number. *)
Definition uuid := N.

(** A [text] value typed by a user (a query, a username, a full name): its
    sequence of Unicode code points. *)
Definition text := list N.

Definition text_of_string (s : string) : text :=
  map N_of_ascii (list_ascii_of_string s).

(** The case folding of the database ([ILIKE] compares the lower-cased
    pattern with the lower-cased value); it belongs to the collation of the
    store, not to the repository. *)
Class Collation := { lower : N -> N }.

(** Folding of the ASCII letters, the collation of the examples. *)
Definition ascii_lower (c : N) : N :=
  if ((65 <=? c) && (c <=? 90))%N then (c + 32)%N else c.

(** ** Tables

    Columns that no handler below reads or writes are left out
    ([created_at], [bio], [content], [media_url], [media_type]). *)

Record profiles_row := {
  p_id : uuid;
  username : text;
  full_name : text;
  avatar_url : text
}.

(** [likes_count integer DEFAULT 0]: a nullable 32-bit integer. *)
Record posts_row := {
  post_id : uuid;
  post_user_id : uuid;
  likes_count : option Z
}.

(** [status text DEFAULT 'pending']: free text, no CHECK constraint. *)
Record friendships_row := {
  f_id : uuid;
  user_id : uuid;
  friend_id : uuid;
  status : string
}.

Record likes_row := {
  l_id : uuid;
  l_user_id : uuid;
  l_post_id : uuid
}.

(** The store. Rows are kept in insertion order. [next_uuid] stands for
    [gen_random_uuid()]: the primary key of the next inserted row. *)
Record db := {
  profiles : list profiles_row;
  posts : list posts_row;
  friendships : list friendships_row;
  likes : list likes_row;
  next_uuid : uuid
}.

Definition empty_db : db :=
  {| profiles := []; posts := []; friendships := []; likes := []; next_uuid := 0%N |}.

Definition set_posts (d : db) (ps : list posts_row) : db :=
  {| profiles := profiles d; posts := ps; friendships := friendships d;
     likes := likes d; next_uuid := next_uuid d |}.

Definition set_friendships (d : db) (fs : list friendships_row) : db :=
  {| profiles := profiles d; posts := posts d; friendships := fs;
     likes := likes d; next_uuid := next_uuid d |}.

Definition set_likes (d : db) (ls : list likes_row) : db :=
  {| profiles := profiles d; posts := posts d; friendships := friendships d;
     likes := ls; next_uuid := next_uuid d |}.

Definition bump_uuid (d : db) : db :=
  {| profiles := profiles d; posts := posts d; friendships := friendships d;
     likes := likes d; next_uuid := N.succ (next_uuid d) |}.

(** ** Errors and answers *)

(** The errors a request can be answered with. The statements below never
    answer [store_unavailable] by themselves; what a handler does with an
    answer is stated for every answer, that one included. *)
Inductive pg_error : Type :=
| unique_violation            (* 23505 *)
| foreign_key_violation       (* 23503 *)
| insufficient_privilege      (* 42501: new row violates row-level security *)
| numeric_value_out_of_range  (* 22003: integer out of range *)
| multiple_rows               (* PGRST116: maybeSingle() on several rows *)
| malformed_filter            (* PGRST100: the filter string does not parse *)
| store_unavailable.          (* the request failed on its way: fetch error *)

(** The [{ data, error }] object that every supabase-js call resolves to.
    The client never throws on a store error: the error is a field. *)
Record response (A : Type) := {
  data : option A;
  error : option pg_error
}.

Definition ok {A} (a : A) : response A := {| data := Some a; error := None |}.
Definition no_data {A} : response A := {| data := None; error := None |}.
Definition failed {A} (e : pg_error) : response A := {| data := None; error := Some e |}.

(** ** Row-level security

    Every table has RLS enabled; [me] is [auth.uid()]. A USING clause hides
    the rows it rejects from the statement (they are neither updated nor
    deleted, and nothing is reported); a WITH CHECK clause rejects the
    statement with [insufficient_privilege]. *)

(** "Users can view their friendships", "Users can update friendship status",
    "Users can delete their friendships":
    [auth.uid() = user_id OR auth.uid() = friend_id]. *)
Definition friendship_party (me : uuid) (r : friendships_row) : bool :=
  (me =? user_id r)%N || (me =? friend_id r)%N.

(** "Users can create friendship requests": [auth.uid() = user_id]. *)
Definition friendship_insert_check (me : uuid) (r : friendships_row) : bool :=
  (me =? user_id r)%N.

(** "Users can create likes", "Users can delete own likes":
    [auth.uid() = user_id]. *)
Definition like_owner (me : uuid) (r : likes_row) : bool :=
  (me =? l_user_id r)%N.

(** "Users can update own posts": [auth.uid() = user_id]. *)
Definition post_owner (me : uuid) (r : posts_row) : bool :=
  (me =? post_user_id r)%N.

(** ** Constraints *)

Definition has_profile (d : db) (u : uuid) : bool :=
  existsb (fun p => (p_id p =? u)%N) (profiles d).

Definition has_post (d : db) (p : uuid) : bool :=
  existsb (fun r => (post_id r =? p)%N) (posts d).

(** [UNIQUE(user_id, friend_id)] on friendships: the ordered pair. *)
Definition friendship_pair_taken (d : db) (u f : uuid) : bool :=
  existsb (fun r => (user_id r =? u)%N && (friend_id r =? f)%N) (friendships d).

(** [UNIQUE(user_id, post_id)] on likes. *)
Definition like_pair_taken (d : db) (u p : uuid) : bool :=
  existsb (fun r => (l_user_id r =? u)%N && (l_post_id r =? p)%N) (likes d).

(** ** The counter functions of [create_like_functions.sql] *)

Definition int4_min : Z := -2147483648.
Definition int4_max : Z := 2147483647.

Definition in_int4 (z : Z) : bool := (int4_min <=? z)%Z && (z <=? int4_max)%Z.

(** [likes_count + 1]: NULL stays NULL; leaving the 32-bit range is an error
    ([None]). *)
Definition plus_one (c : option Z) : option (option Z) :=
  match c with
  | None => Some None
  | Some n => if in_int4 (n + 1) then Some (Some (n + 1)%Z) else None
  end.

(** [GREATEST(likes_count - 1, 0)]: GREATEST skips a NULL argument. *)
Definition greatest_minus_one_0 (c : option Z) : option (option Z) :=
  match c with
  | None => Some (Some 0%Z)
  | Some n => if in_int4 (n - 1) then Some (Some (Z.max (n - 1) 0)) else None
  end.

(** [UPDATE posts SET likes_count = f(likes_count) WHERE id = post_id].
    Both functions are created without SECURITY DEFINER, so they are
    SECURITY INVOKER: the UPDATE runs with the rights of the session that
    calls the rpc, on a table with RLS enabled, hence on the rows that the
    UPDATE policy of posts ("Users can update own posts") lets [me] touch;
    the other rows are skipped without any error. An integer out of range
    aborts the statement and leaves the table as it was. *)
Fixpoint update_likes_count (f : option Z -> option (option Z)) (me pid : uuid)
    (ps : list posts_row) : option (list posts_row) :=
  match ps with
  | [] => Some []
  | r :: rest =>
      match update_likes_count f me pid rest with
      | None => None
      | Some rest' =>
          if (post_id r =? pid)%N && post_owner me r then
            match f (likes_count r) with
            | None => None
            | Some c =>
                Some ({| post_id := post_id r; post_user_id := post_user_id r;
                         likes_count := c |} :: rest')
            end
          else Some (r :: rest')
      end
  end.

Definition rpc_update (f : option Z -> option (option Z)) (me pid : uuid) (d : db)
    : response unit * db :=
  match update_likes_count f me pid (posts d) with
  | Some ps => (no_data, set_posts d ps)
  | None => (failed numeric_value_out_of_range, d)
  end.

Definition increment_likes (me pid : uuid) (d : db) : response unit * db :=
  rpc_update plus_one me pid d.

Definition decrement_likes (me pid : uuid) (d : db) : response unit * db :=
  rpc_update greatest_minus_one_0 me pid d.

(** ** Pattern matching of the store

    [LIKE]: [%] matches any run of characters, [_] any one character, and a
    backslash takes the next pattern character literally. [eqc] compares a
    value character with a literal pattern character. A pattern that ends
    in a lone backslash matches nothing (the store rejects it; no pattern
    built below ends that way). *)

Definition percent : N := 37.
Definition underscore : N := 95.
Definition backslash : N := 92.
Definition star : N := 42.
Definition comma : N := 44.
Definition rparen : N := 41.

Section Like.
Variable eqc : N -> N -> bool.

Fixpoint like_match (p : text) : text -> bool :=
  match p with
  | [] => fun s => match s with [] => true | _ :: _ => false end
  | c :: p' =>
      if (c =? percent)%N then
        fix skip (s : text) : bool :=
          like_match p' s ||
          match s with [] => false | _ :: s' => skip s' end
      else if (c =? underscore)%N then
        fun s => match s with [] => false | _ :: s' => like_match p' s' end
      else if (c =? backslash)%N then
        match p' with
        | [] => fun _ => false
        | e :: p'' =>
            fun s => match s with
                     | [] => false
                     | x :: s' => eqc x e && like_match p'' s'
                     end
        end
      else
        fun s => match s with
                 | [] => false
                 | x :: s' => eqc x c && like_match p' s'
                 end
  end.
End Like.

(** [ILIKE]: literal characters are compared after case folding. *)
Definition ilike `{Collation} (p s : text) : bool :=
  like_match (fun x c => (lower x =? lower c)%N) p s.

(** ** Statements

    Each function is one statement as a screen sends it, run for the
    session whose [auth.uid()] is [me]. *)

(** A friendships row with the profile embedded through a foreign key
    ([profiles:friend_id (...)] or [profiles:user_id (...)]). *)
Record friendships_with_profile := {
  fw_id : uuid;
  fw_profiles : profiles_row
}.

Definition find_profile (d : db) (u : uuid) : option profiles_row :=
  find (fun p => (p_id p =? u)%N) (profiles d).

(** The foreign keys make the embedded profile exist for every row; a row
    whose profile is missing yields nothing here. *)
Definition embed (d : db) (via : friendships_row -> uuid) (r : friendships_row)
    : list friendships_with_profile :=
  match find_profile d (via r) with
  | Some p => [{| fw_id := f_id r; fw_profiles := p |}]
  | None => []
  end.

(** [from('friendships').select('id, friend_id, profiles:friend_id (...)')
      .eq('user_id', u).eq('status', st)] *)
Definition select_by_user_id (me u : uuid) (st : string) (d : db)
    : response (list friendships_with_profile) :=
  ok (flat_map (embed d friend_id)
        (filter (fun r => friendship_party me r && (user_id r =? u)%N
                          && String.eqb (status r) st)
                (friendships d))).

(** [from('friendships').select('id, user_id, profiles:user_id (...)')
      .eq('friend_id', u).eq('status', st)] *)
Definition select_by_friend_id (me u : uuid) (st : string) (d : db)
    : response (list friendships_with_profile) :=
  ok (flat_map (embed d user_id)
        (filter (fun r => friendship_party me r && (friend_id r =? u)%N
                          && String.eqb (status r) st)
                (friendships d))).

(** The value of an [or=(...)] filter ends at the first [,] or [)]: a query
    that holds one does not reach the store as the pattern the screen
    meant. The model answers such a request with [malformed_filter] and
    does not follow the filters that the rest of the query may spell. *)
Definition breaks_or_filter (q : text) : bool :=
  existsb (fun c => (c =? comma)%N || (c =? rparen)%N) q.

(** PostgREST reads [*] in a pattern as [%]. *)
Definition star_to_percent (c : N) : N := if (c =? star)%N then percent else c.

(** The pattern of [%${query}%]. *)
Definition ilike_pattern (q : text) : text :=
  map star_to_percent (percent :: q ++ [percent]).

(** [from('profiles').select('*').neq('id', me)
      .or(`username.ilike.%${query}%,full_name.ilike.%${query}%`).limit(20)] *)
Definition select_profiles_ilike `{Collation} (exclude : uuid) (q : text) (d : db)
    : response (list profiles_row) :=
  if breaks_or_filter q then failed malformed_filter
  else
    ok (firstn 20
          (filter (fun p => negb (p_id p =? exclude)%N
                            && (ilike (ilike_pattern q) (username p)
                                || ilike (ilike_pattern q) (full_name p)))
                  (profiles d))).

(** [and(user_id.eq.a,friend_id.eq.b),and(user_id.eq.b,friend_id.eq.a)] *)
Definition between (a b : uuid) (r : friendships_row) : bool :=
  ((user_id r =? a)%N && (friend_id r =? b)%N)
  || ((user_id r =? b)%N && (friend_id r =? a)%N).

(** [maybeSingle()]: no row gives null data, one row gives the row, more
    than one gives null data and an error. *)
Definition maybeSingle {A} (rows : list A) : response A :=
  match rows with
  | [] => no_data
  | [r] => ok r
  | _ :: _ :: _ => failed multiple_rows
  end.

(** [from('friendships').select('id, status').or(...).maybeSingle()] *)
Definition select_between (me a b : uuid) (d : db) : response (uuid * string) :=
  maybeSingle
    (map (fun r => (f_id r, status r))
         (filter (fun r => friendship_party me r && between a b r) (friendships d))).

(** [from('friendships').insert({ user_id, friend_id, status })]: the insert
    policy, then the unique index, then the foreign keys. *)
Definition insert_into_friendships (me u f : uuid) (st : string) (d : db)
    : response friendships_row * db :=
  let r := {| f_id := next_uuid d; user_id := u; friend_id := f; status := st |} in
  if negb (friendship_insert_check me r) then (failed insufficient_privilege, d)
  else if friendship_pair_taken d u f then (failed unique_violation, d)
  else if negb (has_profile d u && has_profile d f) then (failed foreign_key_violation, d)
  else (ok r, bump_uuid (set_friendships d (friendships d ++ [r]))).

(** [from('friendships').update({ status: st }).eq('id', fid)] *)
Definition set_status (st : string) (r : friendships_row) : friendships_row :=
  {| f_id := f_id r; user_id := user_id r; friend_id := friend_id r; status := st |}.

Definition update_friendships_status (me fid : uuid) (st : string) (d : db)
    : response unit * db :=
  (no_data,
   set_friendships d
     (map (fun r => if (f_id r =? fid)%N && friendship_party me r
                    then set_status st r else r)
          (friendships d))).

(** [from('friendships').delete().eq('id', fid)] *)
Definition delete_from_friendships (me fid : uuid) (d : db) : response unit * db :=
  (no_data,
   set_friendships d
     (filter (fun r => negb ((f_id r =? fid)%N && friendship_party me r))
             (friendships d))).

(** [from('likes').insert({ post_id, user_id })] *)
Definition insert_into_likes (me p u : uuid) (d : db) : response unit * db :=
  let r := {| l_id := next_uuid d; l_user_id := u; l_post_id := p |} in
  if negb (like_owner me r) then (failed insufficient_privilege, d)
  else if like_pair_taken d u p then (failed unique_violation, d)
  else if negb (has_profile d u && has_post d p) then (failed foreign_key_violation, d)
  else (no_data, bump_uuid (set_likes d (likes d ++ [r]))).

(** [from('likes').delete().eq('post_id', p).eq('user_id', u)] *)
Definition delete_from_likes (me p u : uuid) (d : db) : response unit * db :=
  (no_data,
   set_likes d
     (filter (fun r => negb ((l_post_id r =? p)%N && (l_user_id r =? u)%N
                             && like_owner me r))
             (likes d))).

(** ** Requests and programs *)

(** The requests of the screens; the index is the type of [data]. *)
Inductive request : Type -> Type :=
| friendships_by_user_id (u : uuid) (st : string) : request (list friendships_with_profile)
| friendships_by_friend_id (u : uuid) (st : string) : request (list friendships_with_profile)
| profiles_ilike (exclude : uuid) (q : text) : request (list profiles_row)
| friendship_between (a b : uuid) : request (uuid * string)
| friendships_insert (u f : uuid) (st : string) : request friendships_row
| friendships_update_status (fid : uuid) (st : string) : request unit
| friendships_delete (fid : uuid) : request unit
| likes_insert (p u : uuid) : request unit
| likes_delete (p u : uuid) : request unit
| rpc_increment_likes (p : uuid) : request unit
| rpc_decrement_likes (p : uuid) : request unit.

(** The store answers one request of session [me]. *)
Definition exec `{Collation} (me : uuid) {A} (r : request A) (d : db) : response A * db :=
  match r in request A return response A * db with
  | friendships_by_user_id u st => (select_by_user_id me u st d, d)
  | friendships_by_friend_id u st => (select_by_friend_id me u st d, d)
  | profiles_ilike x q => (select_profiles_ilike x q d, d)
  | friendship_between a b => (select_between me a b d, d)
  | friendships_insert u f st => insert_into_friendships me u f st d
  | friendships_update_status fid st => update_friendships_status me fid st d
  | friendships_delete fid => delete_from_friendships me fid d
  | likes_insert p u => insert_into_likes me p u d
  | likes_delete p u => delete_from_likes me p u d
  | rpc_increment_likes p => increment_likes me p d
  | rpc_decrement_likes p => decrement_likes me p d
  end.

(** An async function: it ends with a value, or awaits the answer to a
    request and goes on with it. *)
Inductive prog (B : Type) : Type :=
| Ret (b : B)
| Call (A : Type) (r : request A) (k : response A -> prog B).

Arguments Ret {B} b.
Arguments Call {B A} r k.

Fixpoint bind {B C} (p : prog B) (f : B -> prog C) : prog C :=
  match p with
  | Ret b => f b
  | Call r k => Call r (fun x => bind (k x) f)
  end.

Declare Scope prog_scope.
Delimit Scope prog_scope with prog.
Notation "x <- p ;; q" := (bind p (fun x => q))
  (at level 61, p at next level, right associativity) : prog_scope.
Notation "'await' x <- r ;; q" := (Call r (fun x => q))
  (at level 61, x name, r at next level, right associativity) : prog_scope.

(** A function run alone against the store: its value and the store it
    leaves. *)
Fixpoint run `{Collation} (me : uuid) {B} (p : prog B) (d : db) : B * db :=
  match p with
  | Ret b => (b, d)
  | Call r k => let (x, d') := exec me r d in run me (k x) d'
  end.

(** The errors the store answered during that run, in order. *)
Fixpoint store_errors `{Collation} (me : uuid) {B} (p : prog B) (d : db) : list pg_error :=
  match p with
  | Ret _ => []
  | Call r k =>
      let (x, d') := exec me r d in
      match error x with
      | Some e => e :: store_errors me (k x) d'
      | None => store_errors me (k x) d'
      end
  end.

(** The number of requests the run sends. *)
Fixpoint requests_sent `{Collation} (me : uuid) {B} (p : prog B) (d : db) : nat :=
  match p with
  | Ret _ => 0
  | Call r k => let (x, d') := exec me r d in S (requests_sent me (k x) d')
  end.

(** ** What a handler leaves behind

    Every handler body is one [try { ... } catch (error) { console.error(msg,
    error) }]: it either runs to its end, with the state update it made, or
    lands in the catch block. In both cases the async function returns
    normally: its promise is fulfilled. *)

Inductive thrown : Type :=
| store_error (e : pg_error)   (* [if (error) throw error] *)
| type_error.                  (* reading a field of null *)

Inductive outcome (U : Type) : Type :=
| Completed (u : U)
| Caught (msg : string) (e : thrown).

Arguments Completed {U} u.
Arguments Caught {U} msg e.

Inductive settled : Type :=
| fulfilled
| rejected (e : thrown).

(** How the promise of a handler settles for its caller. *)
Definition settle {U} (o : outcome U) : settled :=
  match o with
  | Completed _ => fulfilled
  | Caught _ _ => fulfilled
  end.

Local Open Scope string_scope.
Local Open Scope prog_scope.

(** ** Friends screen ([app/(tabs)/friends.tsx]) *)

(** [interface Friend]: the columns of a profile, spread, with the two
    optional fields. *)
Record Friend := {
  profile : profiles_row;
  friendship_id : option uuid;
  Friend_status : option string
}.

(** [data?.map(...) || []] *)
Definition or_empty {A} (o : option (list A)) : list A :=
  match o with Some l => l | None => [] end.

Definition loadFriends (me : uuid) : prog (outcome (list Friend)) :=
  await x <- friendships_by_user_id me "accepted" ;;
  match error x with
  | Some e => Ret (Caught "Error loading friends:" (store_error e))
  | None =>
      Ret (Completed
             (map (fun item => {| profile := fw_profiles item;
                                  friendship_id := Some (fw_id item);
                                  Friend_status := None |})
                  (or_empty (data x))))
  end.

Definition loadRequests (me : uuid) : prog (outcome (list Friend)) :=
  await x <- friendships_by_friend_id me "pending" ;;
  match error x with
  | Some e => Ret (Caught "Error loading requests:" (store_error e))
  | None =>
      Ret (Completed
             (map (fun item => {| profile := fw_profiles item;
                                  friendship_id := Some (fw_id item);
                                  Friend_status := Some "pending" |})
                  (or_empty (data x))))
  end.

(** White space and line terminators of [String.prototype.trim]. *)
Definition is_whitespace (c : N) : bool :=
  ((9 <=? c) && (c <=? 13) || (c =? 32) || (c =? 160) || (c =? 5760)
   || (8192 <=? c) && (c <=? 8202) || (c =? 8232) || (c =? 8233)
   || (c =? 8239) || (c =? 8287) || (c =? 12288) || (c =? 65279))%N.

Fixpoint trimStart (s : text) : text :=
  match s with
  | [] => []
  | c :: s' => if is_whitespace c then trimStart s' else s
  end.

Definition trim (s : text) : text := rev (trimStart (rev (trimStart s))).

(** [!query.trim()]: the empty string is the only falsy string. *)
Definition is_blank (query : text) : bool :=
  match trim query with [] => true | _ :: _ => false end.

(** The body of the [map] in [searchUsers], one lookup per profile; the
    [error] of the lookup is not read. *)
Fixpoint with_status (me : uuid) (ps : list profiles_row) : prog (list Friend) :=
  match ps with
  | [] => Ret []
  | p :: rest =>
      await friendshipData <- friendship_between me (p_id p) ;;
      fs <- with_status me rest ;;
      Ret ({| profile := p;
              friendship_id := option_map fst (data friendshipData);
              Friend_status := option_map snd (data friendshipData) |} :: fs)
  end.

Definition searchUsers (me : uuid) (query : text) : prog (outcome (list Friend)) :=
  if is_blank query then Ret (Completed [])
  else
    await x <- profiles_ilike me query ;;
    match error x with
    | Some e => Ret (Caught "Error searching users:" (store_error e))
    | None =>
        resultsWithStatus <- with_status me (or_empty (data x)) ;;
        Ret (Completed resultsWithStatus)
    end.

(** [prev.map((u) => u.id === friendId ? { ...u, status: 'pending' } : u)] *)
Definition mark_pending (friendId : uuid) (prev : list Friend) : list Friend :=
  map (fun u => if (p_id (profile u) =? friendId)%N
                then {| profile := profile u; friendship_id := friendship_id u;
                        Friend_status := Some "pending" |}
                else u)
      prev.

Definition sendFriendRequest (me friendId : uuid)
    : prog (outcome (list Friend -> list Friend)) :=
  await x <- friendships_insert me friendId "pending" ;;
  match error x with
  | Some e => Ret (Caught "Error sending friend request:" (store_error e))
  | None => Ret (Completed (mark_pending friendId))
  end.

Definition acceptRequest (me friendshipId : uuid)
    : prog (outcome (outcome (list Friend))) :=
  await x <- friendships_update_status friendshipId "accepted" ;;
  match error x with
  | Some e => Ret (Caught "Error accepting request:" (store_error e))
  | None => reloaded <- loadRequests me ;; Ret (Completed reloaded)
  end.

Definition rejectRequest (me friendshipId : uuid)
    : prog (outcome (outcome (list Friend))) :=
  await x <- friendships_delete friendshipId ;;
  match error x with
  | Some e => Ret (Caught "Error rejecting request:" (store_error e))
  | None => reloaded <- loadRequests me ;; Ret (Completed reloaded)
  end.

Definition removeFriend (me friendshipId : uuid)
    : prog (outcome (outcome (list Friend))) :=
  await x <- friendships_delete friendshipId ;;
  match error x with
  | Some e => Ret (Caught "Error removing friend:" (store_error e))
  | None => reloaded <- loadFriends me ;; Ret (Completed reloaded)
  end.

(** ** Home and reels screens: [handleLike] (the two copies are the same) *)

Record Post := {
  Post_id : uuid;
  Post_likes_count : Z;
  liked_by_user : bool
}.

(** The [setPosts] update at the end of [handleLike]. *)
Definition toggle_like (postId : uuid) (isLiked : bool) (prevPosts : list Post)
    : list Post :=
  map (fun post =>
         if (Post_id post =? postId)%N
         then {| Post_id := Post_id post;
                 Post_likes_count :=
                   (Post_likes_count post + (if isLiked then -1 else 1))%Z;
                 liked_by_user := negb isLiked |}
         else post)
      prevPosts.

(** Neither answer is read: the two awaits are followed by the state
    update whatever the store said. *)
Definition handleLike (me postId : uuid) (isLiked : bool)
    : prog (outcome (list Post -> list Post)) :=
  if isLiked then
    await deleted <- likes_delete postId me ;;
    await decremented <- rpc_decrement_likes postId ;;
    Ret (Completed (toggle_like postId isLiked))
  else
    await inserted <- likes_insert postId me ;;
    await incremented <- rpc_increment_likes postId ;;
    Ret (Completed (toggle_like postId isLiked)).

(** ** User-profile screen: [handleFriendAction]

    [id] is the profile on screen; the two state variables are what
    [loadUserProfile] looked up. The outcome is their new value. *)
Definition requestFriendship (me id : uuid)
    : prog (outcome (option string * option uuid)) :=
  await x <- friendships_insert me id "pending" ;;
  match error x, data x with
  | Some e, _ => Ret (Caught "Error managing friendship:" (store_error e))
  | None, Some row => Ret (Completed (Some "pending", Some (f_id row)))
  | None, None => Ret (Caught "Error managing friendship:" type_error)
  end.

Definition handleFriendAction (me id : uuid)
    (friendshipStatus : option string) (friendshipId : option uuid)
    : prog (outcome (option string * option uuid)) :=
  match friendshipStatus with
  | Some st =>
      if String.eqb st "accepted" then
        match friendshipId with
        | Some fid =>
            await deleted <- friendships_delete fid ;;
            Ret (Completed (None, None))
        | None => Ret (Completed (friendshipStatus, friendshipId))
        end
      else if String.eqb st "pending" then
        Ret (Completed (friendshipStatus, friendshipId))
      else requestFriendship me id
  | None => requestFriendship me id
  end.

(** ** The operations of the specification, as the screens perform them *)

(** [like(P, C)] is the heart pressed by [P] on a post shown as not liked,
    [unlike(P, C)] the heart pressed on a post shown as liked. *)
Inductive call : Type :=
| like (P C : uuid)
| unlike (P C : uuid).

Definition after_call `{Collation} (d : db) (c : call) : db :=
  match c with
  | like P C => snd (run P (handleLike P C false) d)
  | unlike P C => snd (run P (handleLike P C true) d)
  end.

(** A serial history: each call ends before the next one starts. *)
Definition serial `{Collation} (cs : list call) (d : db) : db :=
  fold_left after_call cs d.

(** The LikeFact rows that reference content [C]. *)
Definition LikeFacts (d : db) (C : uuid) : list likes_row :=
  filter (fun r => (l_post_id r =? C)%N) (likes d).

(** The stored counter of content [C] ([None]: no such post). *)
Definition likeCount (d : db) (C : uuid) : option (option Z) :=
  option_map likes_count (find (fun r => (post_id r =? C)%N) (posts d)).

Definition count_nonneg (c : option Z) : Prop :=
  match c with Some n => (0 <= n)%Z | None => True end.

Definition counts_nonneg (d : db) : Prop :=
  Forall (fun r => count_nonneg (likes_count r)) (posts d).

(** ** Sessions that run at the same time

    Each session is one user in the middle of one handler. The store
    answers one request at a time; a schedule says whose request is next. *)

Definition session (B : Type) : Type := (uuid * prog B)%type.

Definition step `{Collation} {B} (s : session B) (d : db) : option (session B * db) :=
  match snd s with
  | Ret _ => None
  | Call r k => let (x, d') := exec (fst s) r d in Some ((fst s, k x), d')
  end.

Fixpoint set_nth {A} (i : nat) (a : A) (l : list A) : list A :=
  match l, i with
  | [], _ => []
  | _ :: l', O => a :: l'
  | x :: l', S i' => x :: set_nth i' a l'
  end.

Fixpoint interleave `{Collation} {B} (schedule : list nat) (ss : list (session B))
    (d : db) : list (session B) * db :=
  match schedule with
  | [] => (ss, d)
  | i :: rest =>
      match nth_error ss i with
      | Some s =>
          match step s d with
          | Some (s', d') => interleave rest (set_nth i s' ss) d'
          | None => interleave rest ss d
          end
      | None => interleave rest ss d
      end
  end.

Definition finished {B} (s : session B) : bool :=
  match snd s with Ret _ => true | Call _ _ => false end.

(** ** The words of the specification *)

(** [q] starts [s], letters compared without case. *)
Fixpoint ci_prefix `{Collation} (q s : text) : bool :=
  match q, s with
  | [], _ => true
  | _ :: _, [] => false
  | c :: q', x :: s' => (lower x =? lower c)%N && ci_prefix q' s'
  end.

(** [q] occurs in [s] as a substring, letters compared without case. *)
Fixpoint ci_substring `{Collation} (q s : text) : bool :=
  ci_prefix q s || match s with [] => false | _ :: s' => ci_substring q s' end.

(** The records stored for the pair, whichever of the two sent the
    request, read with [maybeSingle]. *)
Definition relationship (d : db) (a b : uuid) : response (uuid * string) :=
  maybeSingle (map (fun r => (f_id r, status r)) (filter (between a b) (friendships d))).

Definition annotate (d : db) (me : uuid) (p : profiles_row) : Friend :=
  {| profile := p;
     friendship_id := option_map fst (data (relationship d me (p_id p)));
     Friend_status := option_map snd (data (relationship d me (p_id p))) |}.

(** Queries in which no character is a pattern character of [ILIKE]
    ([%], [_], backslash), PostgREST's [*], or ends the filter value
    ([,], [)]). *)
Definition plain_char (c : N) : bool :=
  negb ((c =? percent) || (c =? underscore) || (c =? backslash)
        || (c =? star) || (c =? comma) || (c =? rparen))%N.

Definition plain_query (q : text) : bool := forallb plain_char q.

(** A profile that the search is meant to return for query [q]. *)
Definition matches `{Collation} (me : uuid) (q : text) (p : profiles_row) : bool :=
  negb (p_id p =? me)%N && (ci_substring q (username p) || ci_substring q (full_name p)).

(** The claim that a handler hands every store error to its caller. *)
Definition surfaces_errors `{Collation} {U} (p : prog (outcome U)) (me : uuid) (d : db)
    : Prop :=
  forall e, In e (store_errors me p d) ->
            settle (fst (run me p d)) = rejected (store_error e).

(** ** Example data *)

#[export] Instance ascii_collation : Collation := {| lower := ascii_lower |}.

Definition alice : profiles_row :=
  {| p_id := 1%N; username := text_of_string "alice";
     full_name := text_of_string "Alice A"; avatar_url := [] |}.
Definition bob : profiles_row :=
  {| p_id := 2%N; username := text_of_string "bob";
     full_name := text_of_string "Bob B"; avatar_url := [] |}.
Definition carol : profiles_row :=
  {| p_id := 3%N; username := text_of_string "carol";
     full_name := text_of_string "Carol C"; avatar_url := [] |}.

(** Three profiles, one post (id 100) of alice with no like yet. *)
Definition db0 : db :=
  {| profiles := [alice; bob; carol];
     posts := [{| post_id := 100%N; post_user_id := 1%N; likes_count := Some 0%Z |}];
     friendships := [];
     likes := [];
     next_uuid := 1000%N |}.

Definition with_friendships (fs : list friendships_row) : db :=
  set_friendships db0 fs.

(** ** Auxiliary notions of the statements below *)

(** [me] owns none of the posts. *)
Definition owns_none (me : uuid) (ps : list posts_row) : bool :=
  forallb (fun r => negb (post_owner me r)) ps.

(** The row and the store that a successful request of [u] to [f] leaves. *)
Definition new_request (d : db) (u f : uuid) : friendships_row :=
  {| f_id := next_uuid d; user_id := u; friend_id := f; status := "pending" |}.

Definition add_request (d : db) (u f : uuid) : db :=
  bump_uuid (set_friendships d (friendships d ++ [new_request d u f])%list).

Definition pending_1_2 : friendships_row :=
  {| f_id := 1000%N; user_id := 1%N; friend_id := 2%N; status := "pending" |}.
Definition pending_2_1 : friendships_row :=
  {| f_id := 1001%N; user_id := 2%N; friend_id := 1%N; status := "pending" |}.
Definition accepted_1_2 : friendships_row := set_status "accepted" pending_1_2.

(** bob and carol each press the heart of alice's post, at the same time. *)
Definition two_likers : list (session (outcome (list Post -> list Post))) :=
  [ (2%N, handleLike 2%N 100%N false); (3%N, handleLike 3%N 100%N false) ].

(** The six ways in which their four requests can reach the store. *)
Definition complete_schedules : list (list nat) :=
  [ [0; 0; 1; 1]; [0; 1; 0; 1]; [0; 1; 1; 0];
    [1; 0; 0; 1]; [1; 0; 1; 0]; [1; 1; 0; 0] ]%nat.


(** * The other screens

    The functions of the chat, home, reels and profile screens that send
    requests of their own, and the parts of the friends screen that decide
    what can be pressed. *)

From Stdlib Require Import DecimalString Sorted.

(** ** The messages table and the read-only requests *)

Record messages_row := {
  m_id : uuid;
  sender_id : uuid;
  receiver_id : uuid;
  content : text;
  read : bool;
  created_at : Z
}.

(** The store with its fifth table. *)
Record store := {
  tables : db;
  messages : list messages_row
}.

Definition set_tables (s : store) (d : db) : store :=
  {| tables := d; messages := messages s |}.

(** "Users can view their messages":
    [auth.uid() = sender_id OR auth.uid() = receiver_id]. *)
Definition message_party (me : uuid) (m : messages_row) : bool :=
  (me =? sender_id m)%N || (me =? receiver_id m)%N.

(** [ORDER BY created_at DESC]; rows of equal time keep their order. *)
Fixpoint insert_desc (m : messages_row) (l : list messages_row) : list messages_row :=
  match l with
  | [] => [m]
  | x :: l' =>
      if (created_at m <? created_at x)%Z then x :: insert_desc m l' else m :: l
  end.

Definition order_by_created_at_desc (l : list messages_row) : list messages_row :=
  fold_right insert_desc [] l.

(** [from('messages').select('*')
      .or(`sender_id.eq.${u},receiver_id.eq.${u}`)
      .order('created_at', { ascending: false })] *)
Definition select_messages (me u : uuid) (s : store) : response (list messages_row) :=
  ok (order_by_created_at_desc
        (filter (fun m => message_party me m
                          && ((sender_id m =? u)%N || (receiver_id m =? u)%N))
                (messages s))).

(** [from('profiles').select('*').eq('id', u).maybeSingle()] *)
Definition select_profile (u : uuid) (d : db) : response profiles_row :=
  maybeSingle (filter (fun p => (p_id p =? u)%N) (profiles d)).

(** [from('likes').select('id').eq('post_id', p).eq('user_id', u).maybeSingle()];
    "Users can view all likes". *)
Definition select_like (p u : uuid) (d : db) : response uuid :=
  maybeSingle
    (map l_id (filter (fun r => (l_post_id r =? p)%N && (l_user_id r =? u)%N) (likes d))).

(** [from('posts').select('id', { count: 'exact', head: true }).eq('user_id', u)]:
    the answer carries the count and no rows. *)
Definition count_posts (u : uuid) (d : db) : response nat :=
  ok (List.length (filter (fun r => (post_user_id r =? u)%N) (posts d))).

(** [from('friendships').select('id', { count: 'exact', head: true })
      .eq('user_id', u).eq('status', st)] *)
Definition count_friendships (me u : uuid) (st : string) (d : db) : response nat :=
  ok (List.length
        (filter (fun r => friendship_party me r && (user_id r =? u)%N
                          && String.eqb (status r) st)
                (friendships d))).

(** The requests of these screens; [statement] is a request of the
    friends screen sent from another screen. *)
Inductive query : Type -> Type :=
| messages_of (u : uuid) : query (list messages_row)
| profile_by_id (u : uuid) : query profiles_row
| like_by_post_user (p u : uuid) : query uuid
| posts_count (u : uuid) : query nat
| friendships_count (u : uuid) (st : string) : query nat
| statement (A : Type) (r : request A) : query A.

Arguments statement {A} r.

Definition answer `{Collation} (me : uuid) {A} (q : query A) (s : store)
    : response A * store :=
  match q in query A return response A * store with
  | messages_of u => (select_messages me u s, s)
  | profile_by_id u => (select_profile u (tables s), s)
  | like_by_post_user p u => (select_like p u (tables s), s)
  | posts_count u => (count_posts u (tables s), s)
  | friendships_count u st => (count_friendships me u st (tables s), s)
  | statement r => let (x, d) := exec me r (tables s) in (x, set_tables s d)
  end.

Inductive script (B : Type) : Type :=
| Done (b : B)
| Ask (A : Type) (q : query A) (k : response A -> script B).

Arguments Done {B} b.
Arguments Ask {B A} q k.

Fixpoint and_then {B C} (p : script B) (f : B -> script C) : script C :=
  match p with
  | Done b => f b
  | Ask q k => Ask q (fun x => and_then (k x) f)
  end.

Fixpoint perform `{Collation} (me : uuid) {B} (p : script B) (s : store) : B * store :=
  match p with
  | Done b => (b, s)
  | Ask q k => let (x, s') := answer me q s in perform me (k x) s'
  end.

Fixpoint queries_sent `{Collation} (me : uuid) {B} (p : script B) (s : store) : nat :=
  match p with
  | Done _ => 0
  | Ask q k => let (x, s') := answer me q s in S (queries_sent me (k x) s')
  end.

(** ** Chat screen ([app/(tabs)/chat.tsx]) *)

Record LastMessage := {
  lm_content : text;
  lm_created_at : Z;
  lm_read : bool
}.

Record Conversation := {
  conv_id : uuid;
  other_user : profiles_row;
  last_message : LastMessage
}.

(** A JavaScript [Map] with string keys: entries in insertion order. *)
Definition Map_has {V} (k : uuid) (m : list (uuid * V)) : bool :=
  existsb (fun e => (fst e =? k)%N) m.

Definition Map_set {V} (k : uuid) (v : V) (m : list (uuid * V)) : list (uuid * V) :=
  if Map_has k m
  then map (fun e => if (fst e =? k)%N then (k, v) else e) m
  else (m ++ [(k, v)])%list.

Definition Map_values {V} (m : list (uuid * V)) : list V := map snd m.

Definition otherUserId (me : uuid) (message : messages_row) : uuid :=
  if (sender_id message =? me)%N then receiver_id message else sender_id message.

Definition conversation_of (k : uuid) (profileData : profiles_row)
    (message : messages_row) : Conversation :=
  {| conv_id := k;
     other_user := profileData;
     last_message := {| lm_content := content message;
                        lm_created_at := created_at message;
                        lm_read := read message |} |}.

(** The [for (const message of messagesData || [])] loop. *)
Fixpoint conversations_loop (me : uuid) (msgs : list messages_row)
    (conversationMap : list (uuid * Conversation))
    : script (list (uuid * Conversation)) :=
  match msgs with
  | [] => Done conversationMap
  | message :: rest =>
      if Map_has (otherUserId me message) conversationMap
      then conversations_loop me rest conversationMap
      else
        Ask (profile_by_id (otherUserId me message))
            (fun x =>
               match data x with
               | Some profileData =>
                   conversations_loop me rest
                     (Map_set (otherUserId me message)
                              (conversation_of (otherUserId me message)
                                               profileData message)
                              conversationMap)
               | None => conversations_loop me rest conversationMap
               end)
  end.

Definition loadConversations (me : uuid) : script (outcome (list Conversation)) :=
  Ask (messages_of me)
      (fun x =>
         match error x with
         | Some e => Done (Caught "Error loading conversations:" (store_error e))
         | None =>
             and_then (conversations_loop me (or_empty (data x)) [])
                      (fun conversationMap =>
                         Done (Completed (Map_values conversationMap)))
         end).

(** [`${n}`] for an integer [n]. *)
Definition decimal (n : Z) : string := NilZero.string_of_int (Z.to_int n).

(** [formatTime]. [date] is the time value of [new Date(timestamp)] in
    milliseconds, [None] for an invalid date (NaN, which compares false with
    every number); [now] is that of [new Date()]. The date format of the
    device, [toLocaleDateString], is given. *)
Definition formatTime (toLocaleDateString : option Z -> string)
    (date : option Z) (now : Z) : string :=
  match date with
  | None => toLocaleDateString None
  | Some t =>
      let diffMs := (now - t)%Z in
      let diffMins := (diffMs / 60000)%Z in
      let diffHours := (diffMs / 3600000)%Z in
      let diffDays := (diffMs / 86400000)%Z in
      if (diffMins <? 1)%Z then "Just now"
      else if (diffMins <? 60)%Z then decimal diffMins ++ "m ago"
      else if (diffHours <? 24)%Z then decimal diffHours ++ "h ago"
      else if (diffDays <? 7)%Z then decimal diffDays ++ "d ago"
      else toLocaleDateString date
  end.

(** ** Home and reels screens: the like lookup of [loadPosts] / [loadReels] *)

(** [liked_by_user: !!likeData], for one post of the feed. *)
Definition liked_by_user_of (me postId : uuid) : script bool :=
  Ask (like_by_post_user postId me)
      (fun likeData => Done (match data likeData with Some _ => true | None => false end)).

(** ** Friends screen: the Add button of [renderUser] *)

(** [!!item.status]: a string is truthy unless it is empty. *)
Definition truthy (st : option string) : bool :=
  match st with
  | Some s => negb (String.eqb s "")
  | None => false
  end.

(** [disabled={!!item.status}] *)
Definition add_disabled (item : Friend) : bool := truthy (Friend_status item).

(** ** Profile screens: [loadStats] and [loadUserProfile] *)

Record Stats := {
  stat_posts : nat;
  stat_friends : nat
}.

(** [count || 0] *)
Definition or_zero (o : option nat) : nat :=
  match o with Some n => n | None => 0 end.

(** [loadStats] of the profile of [id] ([id] is the user himself on the
    own-profile tab). Neither answer's error is read. *)
Definition loadStats (id : uuid) : script (outcome Stats) :=
  Ask (posts_count id)
      (fun postsResult =>
         Ask (friendships_count id "accepted")
             (fun friendsResult =>
                Done (Completed {| stat_posts := or_zero (data postsResult);
                                   stat_friends := or_zero (data friendsResult) |}))).

(** The state of the user-profile screen that [loadUserProfile] and
    [handleFriendAction] share. *)
Record UserProfileScreen := {
  userProfile : option profiles_row;
  friendshipStatus : option string;
  friendshipId : option uuid;
  stats : Stats
}.

(** [loadUserProfile], without the posts grid ([loadPosts] reads the posts
    of one media type into a state of its own). A failed profile lookup
    throws before anything is set; the friendship state is set only when a
    record is found; [loadStats] never throws. *)
Definition loadUserProfile (me id : uuid) (screen : UserProfileScreen)
    : script (outcome UserProfileScreen) :=
  Ask (profile_by_id id)
      (fun x =>
         match error x with
         | Some profileError =>
             Done (Caught "Error loading user profile:" (store_error profileError))
         | None =>
             Ask (statement (friendship_between me id))
                 (fun y =>
                    and_then (loadStats id)
                      (fun loaded =>
                         Done (Completed
                           {| userProfile := data x;
                              friendshipStatus :=
                                match data y with
                                | Some friendshipData => Some (snd friendshipData)
                                | None => friendshipStatus screen
                                end;
                              friendshipId :=
                                match data y with
                                | Some friendshipData => Some (fst friendshipData)
                                | None => friendshipId screen
                                end;
                              stats :=
                                match loaded with
                                | Completed st => st
                                | Caught _ _ => stats screen
                                end |})))
         end).

(** A screen that has just been mounted. *)
Definition mounted : UserProfileScreen :=
  {| userProfile := None; friendshipStatus := None; friendshipId := None;
     stats := {| stat_posts := 0; stat_friends := 0 |} |}.

(** What the loop of [loadConversations] builds when the profiles do not
    change while it runs. *)
Fixpoint conversations_from (d : db) (me : uuid) (msgs : list messages_row)
    (conversationMap : list (uuid * Conversation)) : list (uuid * Conversation) :=
  match msgs with
  | [] => conversationMap
  | message :: rest =>
      if Map_has (otherUserId me message) conversationMap
      then conversations_from d me rest conversationMap
      else
        match data (select_profile (otherUserId me message) d) with
        | Some profileData =>
            conversations_from d me rest
              (Map_set (otherUserId me message)
                       (conversation_of (otherUserId me message) profileData message)
                       conversationMap)
        | None => conversations_from d me rest conversationMap
        end
  end.

(** [m] was exchanged between [me] and [k]. *)
Definition exchanged (me k : uuid) (m : messages_row) : Prop :=
  (sender_id m = me /\ receiver_id m = k) \/ (sender_id m = k /\ receiver_id m = me).

(** Newest first. *)
Definition newer_first (a b : messages_row) : Prop :=
  (created_at b <= created_at a)%Z.

Definition newer_conversation_first (a b : Conversation) : Prop :=
  (lm_created_at (last_message b) <= lm_created_at (last_message a))%Z.

(** ** Invariants of the store *)

(** UNIQUE(user_id, post_id) holds. *)
Definition likes_unique (d : db) : Prop :=
  NoDup (map (fun r => (l_user_id r, l_post_id r)) (likes d)).

(** UNIQUE(user_id, friend_id) holds. *)
Definition friendships_unique (d : db) : Prop :=
  NoDup (map (fun r => (user_id r, friend_id r)) (friendships d)).

(** The foreign keys hold. *)
Definition references_hold (d : db) : Prop :=
  (forall r, In r (friendships d) ->
             has_profile d (user_id r) = true /\ has_profile d (friend_id r) = true)
  /\ (forall r, In r (likes d) ->
                has_profile d (l_user_id r) = true /\ has_post d (l_post_id r) = true).

(** At most one record for two profiles, whoever sent the request. *)
Definition one_record_per_pair (d : db) : Prop :=
  forall a b, List.length (filter (between a b) (friendships d)) <= 1.

(** The two statuses that the handlers write. *)
Definition statuses_known (d : db) : Prop :=
  forall r, In r (friendships d) -> status r = "pending" \/ status r = "accepted".

(** ** What one request can do to the tables *)

Inductive effect (me : uuid) (d : db) : db -> Prop :=
| nothing_changed : effect me d d
| friendship_added (f : uuid) (st : string) :
    friendship_pair_taken d me f = false ->
    has_profile d me = true -> has_profile d f = true ->
    effect me d
      (bump_uuid (set_friendships d
         (friendships d ++ [{| f_id := next_uuid d; user_id := me;
                               friend_id := f; status := st |}])%list))
| friendships_updated (fid : uuid) (st : string) :
    effect me d
      (set_friendships d
         (map (fun r => if (f_id r =? fid)%N && friendship_party me r
                        then set_status st r else r)
              (friendships d)))
| friendships_deleted (fid : uuid) :
    effect me d
      (set_friendships d
         (filter (fun r => negb ((f_id r =? fid)%N && friendship_party me r))
                 (friendships d)))
| like_added (p : uuid) :
    like_pair_taken d me p = false ->
    has_profile d me = true -> has_post d p = true ->
    effect me d
      (bump_uuid (set_likes d
         (likes d ++ [{| l_id := next_uuid d; l_user_id := me; l_post_id := p |}])%list))
| likes_deleted (p u : uuid) :
    effect me d
      (set_likes d
         (filter (fun r => negb ((l_post_id r =? p)%N && (l_user_id r =? u)%N
                                 && like_owner me r))
                 (likes d)))
| counters_updated (f : option Z -> option (option Z)) (pid : uuid)
    (ps : list posts_row) :
    update_likes_count f me pid (posts d) = Some ps ->
    effect me d (set_posts d ps).

(** ** More example data *)

Definition hello : messages_row :=
  {| m_id := 1%N; sender_id := 1%N; receiver_id := 2%N;
     content := text_of_string "hello"; read := true; created_at := 10%Z |}.
Definition reply : messages_row :=
  {| m_id := 2%N; sender_id := 2%N; receiver_id := 1%N;
     content := text_of_string "hi alice"; read := false; created_at := 20%Z |}.
Definition note : messages_row :=
  {| m_id := 3%N; sender_id := 1%N; receiver_id := 3%N;
     content := text_of_string "see you"; read := false; created_at := 15%Z |}.

Definition chats : store :=
  {| tables := db0; messages := [hello; reply; note] |}.

Definition no_messages (d : db) : store := {| tables := d; messages := [] |}.

Definition iso_date (date : option Z) : string :=
  match date with Some t => decimal t | None => "Invalid Date" end.

(** * Properties *)

Unset Implicit Arguments.
Local Open Scope list_scope.

Section Properties.
Context `{Col : Collation}.

(** ** The counter is never negative *)

Lemma plus_one_nonneg (c c' : option Z) :
  count_nonneg c -> plus_one c = Some c' -> count_nonneg c'.
Proof.
  destruct c as [n|]; simpl.
  - destruct (in_int4 (n + 1)); intros Hn E; inversion E; subst; simpl; lia.
  - intros _ E; inversion E; exact I.
Qed.

Lemma greatest_minus_one_0_nonneg (c c' : option Z) :
  greatest_minus_one_0 c = Some c' -> count_nonneg c'.
Proof.
  destruct c as [n|]; simpl.
  - destruct (in_int4 (n - 1)); intros E; inversion E; subst; simpl; lia.
  - intros E; inversion E; subst; simpl; lia.
Qed.

Lemma update_likes_count_nonneg f me pid :
  (forall c c', count_nonneg c -> f c = Some c' -> count_nonneg c') ->
  forall ps ps',
    Forall (fun r => count_nonneg (likes_count r)) ps ->
    update_likes_count f me pid ps = Some ps' ->
    Forall (fun r => count_nonneg (likes_count r)) ps'.
Proof.
  intros Hf ps; induction ps as [|r rest IH]; simpl; intros ps' Hps E.
  - inversion E; constructor.
  - inversion Hps as [|? ? Hr Hrest]; subst.
    destruct (update_likes_count f me pid rest) as [rest'|] eqn:Erest; [|discriminate].
    specialize (IH rest' Hrest eq_refl).
    destruct ((post_id r =? pid)%N && post_owner me r).
    + destruct (f (likes_count r)) as [c|] eqn:Ef; [|discriminate].
      inversion E; subst; constructor; [simpl; eauto | assumption].
    + inversion E; subst; constructor; assumption.
Qed.

Lemma rpc_update_nonneg f me pid d :
  (forall c c', count_nonneg c -> f c = Some c' -> count_nonneg c') ->
  counts_nonneg d -> counts_nonneg (snd (rpc_update f me pid d)).
Proof.
  intros Hf Hd; unfold rpc_update.
  destruct (update_likes_count f me pid (posts d)) as [ps|] eqn:E; simpl.
  - unfold counts_nonneg; simpl. eapply update_likes_count_nonneg; eauto.
  - assumption.
Qed.

(** No request touches the posts table except the two counter functions. *)
Lemma exec_posts me {A} (r : request A) d :
  posts (snd (exec me r d)) = posts d
  \/ (exists p, snd (exec me r d) = snd (increment_likes me p d))
  \/ (exists p, snd (exec me r d) = snd (decrement_likes me p d)).
Proof.
  destruct r; simpl; try (left; reflexivity).
  - left; unfold insert_into_friendships.
    repeat match goal with |- context [if ?b then _ else _] => destruct b end;
      reflexivity.
  - left; unfold insert_into_likes.
    repeat match goal with |- context [if ?b then _ else _] => destruct b end;
      reflexivity.
  - right; left; eauto.
  - right; right; eauto.
Qed.

Lemma exec_counts_nonneg me {A} (r : request A) d :
  counts_nonneg d -> counts_nonneg (snd (exec me r d)).
Proof.
  intros Hd. destruct (exec_posts me r d) as [E|[[p E]|[p E]]].
  - unfold counts_nonneg; rewrite E; exact Hd.
  - rewrite E. apply rpc_update_nonneg; [apply plus_one_nonneg | exact Hd].
  - rewrite E. apply rpc_update_nonneg; [|exact Hd].
    intros c c' _; apply greatest_minus_one_0_nonneg.
Qed.

Lemma run_counts_nonneg me {B} (p : prog B) :
  forall d, counts_nonneg d -> counts_nonneg (snd (run me p d)).
Proof.
  induction p as [b|A r k IH]; simpl; intros d Hd.
  - exact Hd.
  - pose proof (exec_counts_nonneg me r d Hd) as Hx.
    destruct (exec me r d) as [x d']; simpl in Hx. apply IH; exact Hx.
Qed.

Lemma after_call_counts_nonneg d c :
  counts_nonneg d -> counts_nonneg (after_call d c).
Proof. destruct c as [P K|P K]; unfold after_call; apply run_counts_nonneg. Qed.

Lemma serial_counts_nonneg cs :
  forall d, counts_nonneg d -> counts_nonneg (serial cs d).
Proof.
  unfold serial; induction cs as [|c cs IH]; simpl; intros d Hd.
  - exact Hd.
  - apply IH, after_call_counts_nonneg, Hd.
Qed.

(** C5. For every history of like and unlike calls, matched or not, by any
    profiles on any content, run from a store whose counters are not
    negative: after every prefix of the history no counter is negative; and
    the decrement itself is floored at 0, whatever the counter was. *)
Theorem likeCount_never_negative (cs : list call) (d : db) :
  counts_nonneg d ->
  (forall k, counts_nonneg (serial (firstn k cs) d))
  /\ (forall c c', greatest_minus_one_0 c = Some c' -> count_nonneg c').
Proof.
  intros Hd; split.
  - intros k; apply serial_counts_nonneg, Hd.
  - apply greatest_minus_one_0_nonneg.
Qed.

(** ** Counter functions called by someone who is not the owner *)

Lemma update_likes_count_owns_none f me pid ps :
  owns_none me ps = true -> update_likes_count f me pid ps = Some ps.
Proof.
  induction ps as [|r rest IH]; simpl; intros H; [reflexivity|].
  apply andb_true_iff in H as [Hr Hrest].
  rewrite (IH Hrest).
  apply negb_true_iff in Hr; rewrite Hr, andb_false_r; reflexivity.
Qed.

Lemma rpc_update_owns_none f me pid d :
  owns_none me (posts d) = true -> snd (rpc_update f me pid d) = d.
Proof.
  intros H; unfold rpc_update; rewrite update_likes_count_owns_none by exact H.
  destruct d; reflexivity.
Qed.

Lemma exec_owns_none me {A} (r : request A) d :
  owns_none me (posts d) = true -> posts (snd (exec me r d)) = posts d.
Proof.
  intros H. destruct (exec_posts me r d) as [E|[[p E]|[p E]]]; [exact E| |];
    rewrite E; unfold increment_likes, decrement_likes;
    rewrite rpc_update_owns_none by exact H; reflexivity.
Qed.

Lemma set_nth_Forall {A} (P : A -> Prop) i a l :
  P a -> Forall P l -> Forall P (set_nth i a l).
Proof.
  intros Ha Hl; revert i; induction Hl as [|x l Hx Hl IH]; intros i; simpl.
  - destruct i; constructor.
  - destruct i; constructor; auto.
Qed.

(** Sessions of users who own none of the posts leave every counter as it
    was, whatever they send and however their requests interleave. *)
Lemma interleave_owns_none {B} schedule :
  forall (ss : list (session B)) d,
    Forall (fun s => owns_none (fst s) (posts d) = true) ss ->
    posts (snd (interleave schedule ss d)) = posts d.
Proof.
  induction schedule as [|i rest IH]; simpl; intros ss d Hss; [reflexivity|].
  destruct (nth_error ss i) as [s|] eqn:Ei; [|apply IH, Hss].
  unfold step. destruct s as [me p]; simpl.
  destruct p as [b|A r k]; [apply IH, Hss|].
  assert (Hme : owns_none me (posts d) = true).
  { apply nth_error_In in Ei.
    rewrite Forall_forall in Hss. exact (Hss _ Ei). }
  pose proof (exec_owns_none me r d Hme) as Hp.
  destruct (exec me r d) as [x d']; simpl in Hp.
  rewrite IH; [exact Hp|].
  rewrite Hp. apply set_nth_Forall; [exact Hme | exact Hss].
Qed.

(** ** Friend requests *)

Lemma insert_own_request me f d :
  insert_into_friendships me me f "pending" d =
  if friendship_pair_taken d me f then (failed unique_violation, d)
  else if has_profile d me && has_profile d f
       then (ok (new_request d me f), add_request d me f)
       else (failed foreign_key_violation, d).
Proof.
  unfold insert_into_friendships, friendship_insert_check; simpl.
  rewrite N.eqb_refl; simpl.
  destruct (friendship_pair_taken d me f); [reflexivity|].
  destruct (has_profile d me && has_profile d f); reflexivity.
Qed.

Lemma run_sendFriendRequest me f d :
  run me (sendFriendRequest me f) d =
  if friendship_pair_taken d me f
  then (Caught "Error sending friend request:" (store_error unique_violation), d)
  else if has_profile d me && has_profile d f
       then (Completed (mark_pending f), add_request d me f)
       else (Caught "Error sending friend request:"
                    (store_error foreign_key_violation), d).
Proof.
  unfold sendFriendRequest; cbn [run exec]. rewrite insert_own_request.
  destruct (friendship_pair_taken d me f); [reflexivity|].
  destruct (has_profile d me && has_profile d f); reflexivity.
Qed.

(** C2, as the code has it. While a record with requester [A] and target
    [B] exists, a second request from [A] to [B] is refused by the store
    with a uniqueness conflict and changes nothing; the handler logs it,
    skips its state update and returns normally. The uniqueness is that of
    the ordered pair (user_id, friend_id): the request from [B] to [A] is
    not refused, and a second record for the same two profiles is stored. *)
Theorem createRequest_conflict_is_directed (A B : uuid) (d : db) :
  friendship_pair_taken d A B = true ->
  run A (sendFriendRequest A B) d =
    (Caught "Error sending friend request:" (store_error unique_violation), d)
  /\ (has_profile d A = true -> has_profile d B = true ->
      friendship_pair_taken d B A = false ->
      run B (sendFriendRequest B A) d =
        (Completed (mark_pending A), add_request d B A)).
Proof.
  intros Hab; split.
  - rewrite run_sendFriendRequest, Hab; reflexivity.
  - intros HA HB Hba. rewrite run_sendFriendRequest, Hba, HA, HB; reflexivity.
Qed.

(** ** Accepting *)

Lemma loadRequests_lists_incoming X d fs f :
  fst (run X (loadRequests X) d) = Completed fs -> In f fs ->
  exists r, In r (friendships d) /\ friendship_id f = Some (f_id r)
            /\ friend_id r = X /\ status r = "pending".
Proof.
  cbn [run exec loadRequests fst]; simpl.
  intros E Hf; inversion E; subst; clear E.
  apply in_map_iff in Hf as [item [<- Hitem]].
  apply in_flat_map in Hitem as [r [Hr Hitem]].
  apply filter_In in Hr as [Hr Hcond].
  apply andb_true_iff in Hcond as [Hcond Hst].
  apply andb_true_iff in Hcond as [_ Hfr].
  unfold embed in Hitem.
  destruct (find_profile d (user_id r)); simpl in Hitem; [|contradiction].
  destruct Hitem as [<-|[]]; simpl.
  exists r; repeat split; auto.
  - apply N.eqb_eq, Hfr.
  - apply String.eqb_eq, Hst.
Qed.

(** C3, as the code has it. [accept(id, X)] is one UPDATE by id under the
    policy "Users can update friendship status", which admits both parties:
    the store reports no error in any case; the record becomes accepted
    when [X] is its requester or its target, whatever its status was, and
    stays as it is for any other [X]. The handler adds no check of its
    own. The target-only, pending-only rule lives in what the screen
    offers: the requests tab lists only pending records whose target is
    [X]. *)
Theorem accept_checks_party_only (X fid : uuid) (d : db) :
  let d' := snd (run X (acceptRequest X fid) d) in
  store_errors X (acceptRequest X fid) d = []
  /\ settle (fst (run X (acceptRequest X fid) d)) = fulfilled
  /\ friendships d' =
       map (fun r => if (f_id r =? fid)%N && friendship_party X r
                     then set_status "accepted" r else r)
           (friendships d)
  /\ (forall r, In r (friendships d) -> f_id r = fid ->
                (X = user_id r \/ X = friend_id r) ->
                In (set_status "accepted" r) (friendships d'))
  /\ (forall r, In r (friendships d) -> X <> user_id r -> X <> friend_id r ->
                In r (friendships d'))
  /\ (forall fs f, fst (run X (loadRequests X) d) = Completed fs -> In f fs ->
        exists r, In r (friendships d) /\ friendship_id f = Some (f_id r)
                  /\ friend_id r = X /\ status r = "pending").
Proof.
  intros d'. split; [reflexivity|]. split; [reflexivity|].
  assert (E : friendships d' =
       map (fun r => if (f_id r =? fid)%N && friendship_party X r
                     then set_status "accepted" r else r)
           (friendships d)) by reflexivity.
  split; [exact E|]. split; [|split].
  - intros r Hr Hid Hparty. rewrite E. apply in_map_iff; exists r; split; [|exact Hr].
    subst fid; rewrite N.eqb_refl; simpl.
    unfold friendship_party.
    destruct Hparty as [->| ->]; rewrite N.eqb_refl, ?orb_true_r; reflexivity.
  - intros r Hr Hu Hf. rewrite E. apply in_map_iff; exists r; split; [|exact Hr].
    unfold friendship_party.
    apply N.eqb_neq in Hu, Hf. rewrite Hu, Hf, andb_false_r; reflexivity.
  - intros fs f; apply loadRequests_lists_incoming.
Qed.

(** ** Terminating *)

Lemma filter_none {A} (f : A -> bool) (l : list A) :
  (forall x, In x l -> f x = false) -> filter f l = [].
Proof.
  induction l as [|x l IH]; simpl; intros H; [reflexivity|].
  rewrite (H x (or_introl eq_refl)). apply IH; intros y Hy; apply H; right; exact Hy.
Qed.

Lemma between_same_parties a b X r' :
  X = a \/ X = b -> between a b r' = true -> friendship_party X r' = true.
Proof.
  unfold between, friendship_party; intros HX H.
  apply orb_true_iff in H as [H|H]; apply andb_true_iff in H as [H1 H2];
    apply N.eqb_eq in H1, H2; rewrite H1, H2;
    destruct HX as [->| ->]; rewrite N.eqb_refl, ?orb_true_r; reflexivity.
Qed.

(** C7, as the code has it. [terminate(id, X)] is one DELETE by id under the
    policy "Users can delete their friendships". For a record whose
    requester or target is [X], in any status, the store reports no error
    and the record is gone; [findBetween] on its two parties then finds
    nothing, for whoever asks, provided the record was the only one stored
    for the two profiles (the store admits a second one in the other
    direction). [rejectRequest] and [removeFriend] leave the same store. *)
Theorem terminate_deletes_the_record (X fid : uuid) (d : db) (r : friendships_row) :
  In r (friendships d) -> f_id r = fid ->
  X = user_id r \/ X = friend_id r ->
  (forall r', In r' (friendships d) ->
              between (user_id r) (friend_id r) r' = true -> f_id r' = fid) ->
  let d' := snd (run X (rejectRequest X fid) d) in
  store_errors X (rejectRequest X fid) d = []
  /\ settle (fst (run X (rejectRequest X fid) d)) = fulfilled
  /\ snd (run X (removeFriend X fid) d) = d'
  /\ ~ In r (friendships d')
  /\ relationship d' (user_id r) (friend_id r) = no_data
  /\ (forall me, select_between me (user_id r) (friend_id r) d' = no_data)
  /\ (forall me, select_between me (friend_id r) (user_id r) d' = no_data).
Proof.
  intros Hr Hid HX Honly d'.
  assert (E : friendships d' =
              filter (fun r' => negb ((f_id r' =? fid)%N && friendship_party X r'))
                     (friendships d)) by reflexivity.
  assert (Hgone : forall r', In r' (friendships d') ->
                             between (user_id r) (friend_id r) r' = false).
  { intros r' Hr'. rewrite E in Hr'. apply filter_In in Hr' as [Hin Hkeep].
    destruct (between (user_id r) (friend_id r) r') eqn:Hb; [|reflexivity].
    rewrite (Honly r' Hin Hb), N.eqb_refl in Hkeep.
    rewrite (between_same_parties _ _ X r' HX Hb) in Hkeep. discriminate. }
  assert (Hgone' : forall r', In r' (friendships d') ->
                              between (friend_id r) (user_id r) r' = false).
  { intros r' Hr'. rewrite <- (Hgone r' Hr'). unfold between. apply orb_comm. }
  split; [reflexivity|]. split; [reflexivity|]. split; [reflexivity|].
  split; [|split; [|split]].
  - intros Hin. apply Hgone in Hin. unfold between in Hin.
    rewrite !N.eqb_refl in Hin. discriminate.
  - unfold relationship. rewrite filter_none by exact Hgone. reflexivity.
  - intros me. unfold select_between. rewrite filter_none; [reflexivity|].
    intros r' Hr'. rewrite (Hgone r' Hr'). apply andb_false_r.
  - intros me. unfold select_between. rewrite filter_none; [reflexivity|].
    intros r' Hr'. rewrite (Hgone' r' Hr'). apply andb_false_r.
Qed.

(** ** Requests to oneself *)

Lemma In_firstn {A} (n : nat) (l : list A) (x : A) :
  In x (firstn n l) -> In x l.
Proof.
  revert l; induction n as [|n IH]; intros [|y l]; simpl; try tauto.
  intros [->|H]; [left; reflexivity | right; apply IH, H].
Qed.

Lemma with_status_profiles me ps :
  forall d, fst (run me (with_status me ps) d) = map (annotate d me) ps
            /\ snd (run me (with_status me ps) d) = d.
Proof.
  induction ps as [|p rest IH]; intros d; [split; reflexivity|].
  cbn [with_status run exec].
  destruct (IH d) as [IH1 IH2].
  assert (Hb : forall B (q : prog (list Friend)) (g : list Friend -> B) d0,
             run me (bind q (fun fs => Ret (g fs))) d0 =
             (g (fst (run me q d0)), snd (run me q d0))).
  { intros B q g; induction q as [b|A r k IHq]; intros d0; [reflexivity|].
    cbn [bind run]. destruct (exec me r d0) as [x d1]. apply IHq. }
  rewrite Hb, IH1, IH2. cbn [fst snd map]. split; [|reflexivity].
  f_equal. unfold annotate, relationship, select_between.
  assert (Hf : filter (fun r => friendship_party me r && between me (p_id p) r)
                      (friendships d) =
               filter (between me (p_id p)) (friendships d)).
  { apply filter_ext; intros r.
    destruct (between me (p_id p) r) eqn:Hb'; [|apply andb_false_r].
    rewrite (between_same_parties me (p_id p) me r (or_introl eq_refl) Hb').
    reflexivity. }
  rewrite Hf. reflexivity.
Qed.

Lemma searchUsers_excludes_me me q d fs f :
  fst (run me (searchUsers me q) d) = Completed fs -> In f fs ->
  p_id (profile f) <> me.
Proof.
  unfold searchUsers. destruct (is_blank q).
  - cbn [run fst]; intros E; inversion E; subst; contradiction.
  - cbn [run exec]. unfold select_profiles_ilike.
    destruct (breaks_or_filter q); cbn [error data failed ok or_empty run fst];
      [discriminate|].
    match goal with |- context [with_status me ?l] => set (ps := l) end.
    destruct (with_status_profiles me ps d) as [E1 E2].
    assert (Hrun : fst (run me (fs0 <- with_status me ps ;; Ret (Completed fs0)) d)
                   = Completed (map (annotate d me) ps)).
    { rewrite <- E1. generalize (with_status me ps) d.
      intros w; induction w as [b|A r k IHw]; intros d0; [reflexivity|].
      cbn [bind run]. destruct (exec me r d0) as [x d1]. apply IHw. }
    rewrite Hrun. intros E Hf; inversion E; subst; clear E.
    apply in_map_iff in Hf as [p [<- Hp]]. simpl.
    subst ps. apply In_firstn, filter_In in Hp as [_ Hp].
    apply andb_true_iff in Hp as [Hne _].
    apply negb_true_iff, N.eqb_neq in Hne. exact Hne.
Qed.

(** C8, as the code has it. Neither handler compares requester and target
    and the schema has no such constraint: a request of [A] to [A] is
    inserted like any other (when [A] has a profile and has not sent that
    request before), from the friends screen and from the profile screen
    alike. What keeps self-requests out of the friends screen is the
    search, which never lists the caller. *)
Theorem self_request_is_inserted (A : uuid) (d : db) :
  has_profile d A = true ->
  friendship_pair_taken d A A = false ->
  run A (sendFriendRequest A A) d = (Completed (mark_pending A), add_request d A A)
  /\ run A (handleFriendAction A A None None) d =
       (Completed (Some "pending", Some (next_uuid d)), add_request d A A)
  /\ In (new_request d A A) (friendships (add_request d A A))
  /\ (forall q fs f, fst (run A (searchUsers A q) d) = Completed fs -> In f fs ->
                     p_id (profile f) <> A).
Proof.
  intros HA Hfree. split; [|split; [|split]].
  - rewrite run_sendFriendRequest, Hfree, HA; reflexivity.
  - unfold handleFriendAction, requestFriendship; cbn [run exec].
    rewrite insert_own_request, Hfree, HA; reflexivity.
  - unfold add_request; simpl. apply in_or_app; right; left; reflexivity.
  - intros q fs f; apply searchUsers_excludes_me.
Qed.

(** ** Errors of the friendship writes *)

(** C9, as the code has it, for the friendship writes of the friends
    screen. Whatever error answers the write (a store error or a failed
    transport), the handler stops there: no later request, no state update;
    the error goes to [console.error] and the handler returns normally, so
    its caller sees a fulfilled promise, not the error. On the store of the
    model: a refused [createRequest] leaves the store as it was after that
    single request. *)
Theorem friendship_write_errors_are_logged (me id : uuid) (e : pg_error) :
  (exists k, sendFriendRequest me id = Call (friendships_insert me id "pending") k
     /\ forall x, error x = Some e ->
          k x = Ret (Caught "Error sending friend request:" (store_error e)))
  /\ (exists k, acceptRequest me id = Call (friendships_update_status id "accepted") k
     /\ forall x, error x = Some e ->
          k x = Ret (Caught "Error accepting request:" (store_error e)))
  /\ (exists k, rejectRequest me id = Call (friendships_delete id) k
     /\ forall x, error x = Some e ->
          k x = Ret (Caught "Error rejecting request:" (store_error e)))
  /\ (exists k, removeFriend me id = Call (friendships_delete id) k
     /\ forall x, error x = Some e ->
          k x = Ret (Caught "Error removing friend:" (store_error e)))
  /\ (forall U msg, settle (@Caught U msg (store_error e)) = fulfilled)
  /\ (forall d, In e (store_errors me (sendFriendRequest me id) d) ->
        run me (sendFriendRequest me id) d =
          (Caught "Error sending friend request:" (store_error e), d)
        /\ requests_sent me (sendFriendRequest me id) d = 1).
Proof.
  repeat split.
  - eexists; split; [reflexivity|]. intros x Hx; cbv beta; rewrite Hx; reflexivity.
  - eexists; split; [reflexivity|]. intros x Hx; cbv beta; rewrite Hx; reflexivity.
  - eexists; split; [reflexivity|]. intros x Hx; cbv beta; rewrite Hx; reflexivity.
  - eexists; split; [reflexivity|]. intros x Hx; cbv beta; rewrite Hx; reflexivity.
  - revert H. rewrite run_sendFriendRequest.
    unfold sendFriendRequest; cbn [store_errors exec]. rewrite insert_own_request.
    destruct (friendship_pair_taken d me id); simpl.
    + intros [<-|[]]; reflexivity.
    + destruct (has_profile d me && has_profile d id); simpl.
      * intros [].
      * intros [<-|[]]; reflexivity.
  - unfold sendFriendRequest; cbn [requests_sent exec].
    destruct (insert_into_friendships me me id "pending" d) as [x d'].
    destruct (error x); reflexivity.
Qed.

(** ** Search *)

Lemma trimStart_nil_or_head (s : text) :
  trimStart s = [] \/
  exists c rest, trimStart s = c :: rest /\ is_whitespace c = false.
Proof.
  induction s as [|c s IH]; simpl; [left; reflexivity|].
  destruct (is_whitespace c) eqn:E; [exact IH|].
  right; exists c, s; split; [reflexivity | exact E].
Qed.

Lemma trimStart_nil (s : text) :
  trimStart s = [] <-> forallb is_whitespace s = true.
Proof.
  induction s as [|c s IH]; simpl; [tauto|].
  destruct (is_whitespace c); simpl; [exact IH|].
  split; discriminate.
Qed.

Lemma forallb_rev {A} (f : A -> bool) (l : list A) :
  forallb f (rev l) = forallb f l.
Proof.
  induction l as [|x l IH]; simpl; [reflexivity|].
  rewrite forallb_app, IH; simpl. rewrite andb_true_r. apply andb_comm.
Qed.

Lemma is_blank_whitespace (q : text) :
  is_blank q = forallb is_whitespace q.
Proof.
  unfold is_blank, trim.
  destruct (forallb is_whitespace q) eqn:Hq.
  - apply trimStart_nil in Hq. rewrite Hq. reflexivity.
  - destruct (trimStart_nil_or_head q) as [E|[c [rest [E Hc]]]].
    + apply trimStart_nil in E. congruence.
    + rewrite E.
      destruct (rev (trimStart (rev (c :: rest)))) as [|y l] eqn:Er; [|reflexivity].
      apply (f_equal (@rev N)) in Er. rewrite rev_involutive in Er.
      change (rev (@nil N)) with (@nil N) in Er.
      apply trimStart_nil in Er. rewrite forallb_rev in Er. simpl in Er.
      rewrite Hc in Er. discriminate.
Qed.

Section LikePatterns.
Variable eqc : N -> N -> bool.

Lemma like_percent p s :
  like_match eqc (percent :: p) s =
  like_match eqc p s
  || match s with [] => false | _ :: s' => like_match eqc (percent :: p) s' end.
Proof. destruct s; reflexivity. Qed.

Lemma like_literal c p s :
  plain_char c = true ->
  like_match eqc (c :: p) s =
  match s with [] => false | x :: s' => eqc x c && like_match eqc p s' end.
Proof.
  unfold plain_char; intros H. apply negb_true_iff in H.
  repeat (apply orb_false_iff in H as [H ?]).
  cbn [like_match]. rewrite H.
  match goal with H1 : (c =? underscore)%N = false |- _ => rewrite H1 end.
  match goal with H1 : (c =? backslash)%N = false |- _ => rewrite H1 end.
  destruct s; reflexivity.
Qed.

Lemma like_only_percent s : like_match eqc [percent] s = true.
Proof.
  induction s as [|x s IH]; [reflexivity|].
  rewrite like_percent, IH. apply orb_true_r.
Qed.
End LikePatterns.

Lemma ilike_plain_prefix (q : text) :
  plain_query q = true ->
  forall s, ilike (q ++ [percent]) s = ci_prefix q s.
Proof.
  unfold ilike, plain_query.
  induction q as [|c q IH]; simpl app; intros Hq s.
  - rewrite like_only_percent. destruct s; reflexivity.
  - simpl in Hq. apply andb_true_iff in Hq as [Hc Hq].
    rewrite like_literal by exact Hc.
    destruct s as [|x s]; [reflexivity|].
    rewrite (IH Hq). reflexivity.
Qed.

Lemma ilike_pattern_plain (q : text) :
  plain_query q = true -> ilike_pattern q = percent :: q ++ [percent].
Proof.
  intros Hq. unfold ilike_pattern. cbn [map]. f_equal.
  rewrite map_app. cbn [map]. f_equal.
  unfold plain_query in Hq. induction q as [|c q IH]; [reflexivity|].
  simpl in Hq. apply andb_true_iff in Hq as [Hc Hq]. cbn [map].
  rewrite (IH Hq). f_equal.
  unfold plain_char in Hc. apply negb_true_iff in Hc.
  repeat (apply orb_false_iff in Hc as [Hc ?]).
  unfold star_to_percent.
  match goal with H1 : (c =? star)%N = false |- _ => rewrite H1 end.
  reflexivity.
Qed.

Lemma ilike_plain_substring (q : text) :
  plain_query q = true ->
  forall s, ilike (ilike_pattern q) s = ci_substring q s.
Proof.
  intros Hq s. rewrite ilike_pattern_plain by exact Hq.
  induction s as [|x s IH].
  - unfold ilike. rewrite like_percent. fold (ilike (q ++ [percent]) []).
    rewrite ilike_plain_prefix by exact Hq. simpl. reflexivity.
  - unfold ilike. rewrite like_percent. fold (ilike (q ++ [percent]) (x :: s)).
    fold (ilike (percent :: q ++ [percent]) s).
    rewrite ilike_plain_prefix by exact Hq. rewrite IH. reflexivity.
Qed.

Lemma plain_query_keeps_filter (q : text) :
  plain_query q = true -> breaks_or_filter q = false.
Proof.
  unfold plain_query, breaks_or_filter.
  induction q as [|c q IH]; simpl; intros Hq; [reflexivity|].
  apply andb_true_iff in Hq as [Hc Hq]. rewrite (IH Hq), orb_false_r.
  unfold plain_char in Hc. apply negb_true_iff in Hc.
  repeat (apply orb_false_iff in Hc as [Hc ?]).
  apply orb_false_iff; split; assumption.
Qed.

Lemma run_then_Completed me {U} (w : prog U) :
  forall d, run me (u <- w ;; Ret (Completed u)) d =
            (Completed (fst (run me w d)), snd (run me w d)).
Proof.
  induction w as [b|A r k IH]; intros d; [reflexivity|].
  cbn [bind run]. destruct (exec me r d) as [x d1]. apply IH.
Qed.

(** C10, as the code has it. A query that is empty or all white space makes
    [searchUsers] set the empty list without any request. Any other query
    made of plain characters (none of [%], [_], backslash, [*], [,], [)])
    gives the first 20 profiles, the caller left out, whose username or
    full name holds the query as a substring, letters compared without
    case, each with the id and status of the record stored for the caller
    and that profile in either direction (read with [maybeSingle]); the
    store is left as it was. *)
Theorem searchUsers_result (me : uuid) (q : text) (d : db) :
  (forallb is_whitespace q = true -> searchUsers me q = Ret (Completed []))
  /\ (forallb is_whitespace q = false -> plain_query q = true ->
      let results :=
        map (annotate d me) (firstn 20 (filter (matches me q) (profiles d))) in
      run me (searchUsers me q) d = (Completed results, d)
      /\ List.length results <= 20
      /\ forall f, In f results -> p_id (profile f) <> me).
Proof.
  split.
  - intros Hq. unfold searchUsers. rewrite is_blank_whitespace, Hq. reflexivity.
  - intros Hq Hplain results.
    assert (Hrun : run me (searchUsers me q) d = (Completed results, d)).
    { unfold searchUsers. rewrite is_blank_whitespace, Hq.
      cbn [run exec]. unfold select_profiles_ilike.
      rewrite plain_query_keeps_filter by exact Hplain.
      cbn [error data ok or_empty].
      rewrite run_then_Completed.
      match goal with |- context [with_status me ?l] => set (ps := l) end.
      destruct (with_status_profiles me ps d) as [E1 E2]. rewrite E1, E2.
      subst ps results. do 4 f_equal.
      apply filter_ext; intros p. unfold matches.
      rewrite !ilike_plain_substring by exact Hplain. reflexivity. }
    split; [exact Hrun|]. split.
    + subst results. rewrite length_map. apply firstn_le_length.
    + intros f Hf. eapply searchUsers_excludes_me; [|exact Hf].
      rewrite Hrun. reflexivity.
Qed.

End Properties.

(** * The properties on the example data *)

Local Open Scope N_scope.

(** ** Likes *)

(** C1. From an empty ledger and a counter at 0, alice likes her own post
    twice in a row: the second insert is refused by UNIQUE(user_id,
    post_id), [handleLike] does not read that answer and increments again.
    One LikeFact, counter 2. And bob likes her post once: [increment_likes]
    runs with bob's rights and the UPDATE policy of posts hides the row from
    him. One LikeFact, counter 0. *)
Theorem like_twice_counts_twice :
  LikeFacts db0 100 = [] /\ likeCount db0 100 = Some (Some 0%Z)
  /\ (let d := serial [like 1 100; like 1 100] db0 in
      List.length (LikeFacts d 100) = 1%nat /\ likeCount d 100 = Some (Some 2%Z)
      /\ store_errors 1 (handleLike 1 100 false) (serial [like 1 100] db0)
         = [unique_violation])
  /\ (let d := serial [like 2 100] db0 in
      List.length (LikeFacts d 100) = 1%nat /\ likeCount d 100 = Some (Some 0%Z)).
Proof. vm_compute. repeat split. Qed.

Lemma likeCount_never_negative_witness :
  counts_nonneg db0
  /\ counts_nonneg (serial (firstn 3 [unlike 2 100; unlike 1 100; like 1 100]) db0).
Proof.
  assert (H : counts_nonneg db0) by (repeat constructor; simpl; lia).
  split; [exact H|].
  exact (proj1 (likeCount_never_negative
                  [unlike 2 100; unlike 1 100; like 1 100] db0 H) 3%nat).
Defined.

(** C6. bob and carol like alice's post at the same time. However their
    requests interleave, the counter of the post stays at 0; in each of the
    six complete interleavings both handlers finish and both LikeFacts are
    stored. The counter functions run with the rights of their caller, and
    the UPDATE policy of posts admits the owner of the post only. *)
Theorem concurrent_likes_of_others_are_not_counted :
  (forall schedule,
      likeCount (snd (interleave schedule two_likers db0)) 100 = Some (Some 0%Z))
  /\ Forall (fun schedule =>
               forallb finished (fst (interleave schedule two_likers db0)) = true
               /\ List.length (LikeFacts (snd (interleave schedule two_likers db0)) 100)
                  = 2%nat
               /\ likeCount (snd (interleave schedule two_likers db0)) 100
                  = Some (Some 0%Z))
            complete_schedules.
Proof.
  split.
  - intros schedule. unfold likeCount.
    rewrite interleave_owns_none; [reflexivity|].
    repeat constructor.
  - repeat constructor.
Qed.

(** ** Friend requests *)

(** C2 fails as stated: after alice's request to bob, bob's request to alice
    is stored without any error, and the pair has two records. *)
Lemma createRequest_reverse_is_stored :
  let d1 := snd (run 1 (sendFriendRequest 1 2) db0) in
  friendships d1 = [pending_1_2]
  /\ store_errors 2 (sendFriendRequest 2 1) d1 = []
  /\ fst (run 2 (sendFriendRequest 2 1) d1) = Completed (mark_pending 1)
  /\ filter (between 1 2) (friendships (snd (run 2 (sendFriendRequest 2 1) d1)))
     = [pending_1_2; pending_2_1].
Proof. repeat split. Qed.

Lemma createRequest_conflict_is_directed_witness :
  friendship_pair_taken (with_friendships [pending_1_2]) 1 2 = true
  /\ run 1 (sendFriendRequest 1 2) (with_friendships [pending_1_2]) =
       (Caught "Error sending friend request:" (store_error unique_violation),
        with_friendships [pending_1_2])
  /\ run 2 (sendFriendRequest 2 1) (with_friendships [pending_1_2]) =
       (Completed (mark_pending 1), add_request (with_friendships [pending_1_2]) 2 1).
Proof.
  destruct (createRequest_conflict_is_directed 1 2 (with_friendships [pending_1_2])
              eq_refl) as [H1 H2].
  split; [reflexivity|]. split; [exact H1|].
  exact (H2 eq_refl eq_refl eq_refl).
Defined.

(** C3 fails as stated: alice, the requester, accepts her own request to
    bob, and bob then accepts the accepted record once more; the store
    reports no error either time. *)
Lemma accept_by_requester_succeeds :
  let d := with_friendships [pending_1_2] in
  let d' := snd (run 1 (acceptRequest 1 1000) d) in
  store_errors 1 (acceptRequest 1 1000) d = []
  /\ friendships d' = [accepted_1_2]
  /\ store_errors 2 (acceptRequest 2 1000) d' = []
  /\ friendships (snd (run 2 (acceptRequest 2 1000) d')) = [accepted_1_2].
Proof. repeat split. Qed.

Lemma accept_checks_party_only_witness :
  In (set_status "accepted" pending_1_2)
     (friendships (snd (run 1 (acceptRequest 1 1000) (with_friendships [pending_1_2]))))
  /\ In pending_1_2
        (friendships (snd (run 3 (acceptRequest 3 1000) (with_friendships [pending_1_2])))).
Proof.
  split.
  - apply (proj1 (proj2 (proj2 (proj2
             (accept_checks_party_only 1 1000 (with_friendships [pending_1_2])))))
             pending_1_2); [left; reflexivity | reflexivity | left; reflexivity].
  - apply (proj1 (proj2 (proj2 (proj2 (proj2
             (accept_checks_party_only 3 1000 (with_friendships [pending_1_2]))))))
             pending_1_2); [left; reflexivity | discriminate | discriminate].
Defined.

(** C4. alice's request to bob was accepted: bob is on alice's list, alice
    is not on bob's. [loadFriends] selects on user_id alone. *)
Theorem listFriends_lists_one_direction :
  let d := with_friendships [accepted_1_2] in
  fst (run 1 (loadFriends 1) d) =
    Completed [{| profile := bob; friendship_id := Some 1000;
                  Friend_status := None |}]
  /\ fst (run 2 (loadFriends 2) d) = Completed [].
Proof. split; reflexivity. Qed.

(** C7 fails as stated: with a record in each direction, bob rejects
    alice's request and [findBetween] still finds his own. *)
Lemma terminate_leaves_the_reverse_record :
  let d := with_friendships [pending_1_2; pending_2_1] in
  let d' := snd (run 2 (rejectRequest 2 1000) d) in
  friendships d' = [pending_2_1]
  /\ select_between 2 1 2 d' = ok (1001, "pending")
  /\ select_between 1 1 2 d' = ok (1001, "pending").
Proof. repeat split. Qed.

Lemma terminate_deletes_the_record_witness :
  let d := with_friendships [accepted_1_2] in
  let d' := snd (run 1 (removeFriend 1 1000) d) in
  ~ In accepted_1_2 (friendships d')
  /\ (forall me, select_between me 1 2 d' = no_data).
Proof.
  intros d d'.
  assert (Honly : forall r', In r' (friendships d) ->
            between (user_id accepted_1_2) (friend_id accepted_1_2) r' = true ->
            f_id r' = 1000).
  { intros r' [<-|[]] _; reflexivity. }
  pose proof (terminate_deletes_the_record 1 1000 d accepted_1_2
                (or_introl eq_refl) eq_refl (or_introl eq_refl) Honly) as H.
  split; [apply H | apply H].
Defined.

(** C8 fails as stated: alice's request to herself is stored. *)
Lemma self_request_is_stored :
  store_errors 1 (sendFriendRequest 1 1) db0 = []
  /\ friendships (snd (run 1 (sendFriendRequest 1 1) db0)) =
       [{| f_id := 1000; user_id := 1; friend_id := 1; status := "pending" |}].
Proof. split; reflexivity. Qed.

Lemma self_request_is_inserted_witness :
  has_profile db0 1 = true /\ friendship_pair_taken db0 1 1 = false
  /\ run 1 (sendFriendRequest 1 1) db0 = (Completed (mark_pending 1), add_request db0 1 1).
Proof.
  split; [reflexivity|]. split; [reflexivity|].
  exact (proj1 (self_request_is_inserted 1 db0 eq_refl eq_refl)).
Defined.

(** C9 fails as stated: the store refuses alice's second request to bob,
    and the promise of [sendFriendRequest] is fulfilled all the same. *)
Lemma sendFriendRequest_swallows_the_conflict :
  ~ surfaces_errors (sendFriendRequest 1 2) 1 (with_friendships [pending_1_2]).
Proof.
  intros H. specialize (H unique_violation (or_introl eq_refl)). discriminate H.
Qed.

Lemma friendship_write_errors_are_logged_witness :
  In unique_violation
     (store_errors 1 (sendFriendRequest 1 2) (with_friendships [pending_1_2]))
  /\ run 1 (sendFriendRequest 1 2) (with_friendships [pending_1_2]) =
       (Caught "Error sending friend request:" (store_error unique_violation),
        with_friendships [pending_1_2])
  /\ requests_sent 1 (sendFriendRequest 1 2) (with_friendships [pending_1_2]) = 1%nat.
Proof.
  split; [left; reflexivity|].
  apply (proj2 (proj2 (proj2 (proj2 (proj2
           (friendship_write_errors_are_logged 1 2 unique_violation)))))).
  left; reflexivity.
Defined.

(** ** Search *)

(** C10 fails as stated: the query [_] is not blank and occurs in neither
    name of bob or carol, yet both are returned: [_] is a pattern character
    of ILIKE. *)
Lemma searchUsers_underscore_matches_all :
  is_blank [underscore] = false
  /\ matches 1 [underscore] bob = false
  /\ matches 1 [underscore] carol = false
  /\ fst (run 1 (searchUsers 1 [underscore]) db0) =
       Completed [annotate db0 1 bob; annotate db0 1 carol].
Proof. repeat split. Qed.

Lemma searchUsers_result_witness :
  searchUsers 1 (text_of_string "  ") = Ret (Completed [])
  /\ run 1 (searchUsers 1 (text_of_string "B")) (with_friendships [pending_2_1]) =
       (Completed [{| profile := bob; friendship_id := Some 1001;
                      Friend_status := Some "pending" |}],
        with_friendships [pending_2_1]).
Proof.
  split.
  - exact (proj1 (searchUsers_result 1 (text_of_string "  ") db0) eq_refl).
  - exact (proj1 (proj2 (searchUsers_result 1 (text_of_string "B")
                           (with_friendships [pending_2_1])) eq_refl eq_refl)).
Defined.

(** * Further properties of the store and the screens *)

Section MoreProperties.
Context `{Col : Collation}.

(** ** Every request is one of seven effects *)

Lemma exec_effect me {A} (r : request A) d : effect me d (snd (exec me r d)).
Proof.
  destruct r; cbn [exec snd]; try apply nothing_changed.
  - unfold insert_into_friendships, friendship_insert_check; cbn [user_id].
    destruct (N.eqb_spec me u) as [<-|Hne]; cbn [negb]; [|apply nothing_changed].
    destruct (friendship_pair_taken d me f) eqn:Ht; [apply nothing_changed|].
    destruct (has_profile d me) eqn:H1; [|apply nothing_changed].
    destruct (has_profile d f) eqn:H2; [|apply nothing_changed].
    cbn [andb negb snd]. apply friendship_added; assumption.
  - apply friendships_updated.
  - apply friendships_deleted.
  - unfold insert_into_likes, like_owner; cbn [l_user_id].
    destruct (N.eqb_spec me u) as [<-|Hne]; cbn [negb]; [|apply nothing_changed].
    destruct (like_pair_taken d me p) eqn:Ht; [apply nothing_changed|].
    destruct (has_profile d me) eqn:H1; [|apply nothing_changed].
    destruct (has_post d p) eqn:H2; [|apply nothing_changed].
    cbn [andb negb snd]. apply like_added; assumption.
  - apply likes_deleted.
  - unfold increment_likes, rpc_update.
    destruct (update_likes_count plus_one me p (posts d)) eqn:E;
      [eapply counters_updated; exact E | apply nothing_changed].
  - unfold decrement_likes, rpc_update.
    destruct (update_likes_count greatest_minus_one_0 me p (posts d)) eqn:E;
      [eapply counters_updated; exact E | apply nothing_changed].
Qed.

(** A relation between stores that holds across every effect of [me] holds
    across every program that [me] runs. *)
Lemma run_effects (R : db -> db -> Prop) me :
  (forall d, R d d) ->
  (forall d1 d2 d3, R d1 d2 -> R d2 d3 -> R d1 d3) ->
  (forall d d', effect me d d' -> R d d') ->
  forall {B} (p : prog B) d, R d (snd (run me p d)).
Proof.
  intros Hrefl Htrans Hstep B p.
  induction p as [b|A r k IH]; intros d; cbn [run]; [apply Hrefl|].
  pose proof (exec_effect me r d) as He.
  destruct (exec me r d) as [x d']; cbn [snd] in He.
  eapply Htrans; [apply Hstep, He | apply IH].
Qed.

(** A property of stores that every effect of every user keeps is kept by
    every program and by every interleaving of sessions. *)
Lemma run_keeps (P : db -> Prop) :
  (forall me d d', effect me d d' -> P d -> P d') ->
  forall me {B} (p : prog B) d, P d -> P (snd (run me p d)).
Proof.
  intros Hstep me B p d.
  apply (run_effects (fun d d' => P d -> P d') me); auto.
  intros d1 d2; apply Hstep.
Qed.

Lemma interleave_keeps (P : db -> Prop) :
  (forall me d d', effect me d d' -> P d -> P d') ->
  forall {B} schedule (ss : list (session B)) d,
    P d -> P (snd (interleave schedule ss d)).
Proof.
  intros Hstep B schedule.
  induction schedule as [|i rest IH]; intros ss d Hd; cbn [interleave]; [exact Hd|].
  destruct (nth_error ss i) as [[me p]|]; [|apply IH, Hd].
  unfold step; cbn [fst snd].
  destruct p as [b|A r k]; [apply IH, Hd|].
  pose proof (exec_effect me r d) as He.
  destruct (exec me r d) as [x d']; cbn [snd] in He.
  apply IH. eapply Hstep; eassumption.
Qed.

Lemma answer_effect me {A} (q : query A) s :
  messages (snd (answer me q s)) = messages s
  /\ effect me (tables s) (tables (snd (answer me q s))).
Proof.
  destruct q; cbn [answer snd]; try (split; [reflexivity | apply nothing_changed]).
  pose proof (exec_effect me r (tables s)) as He.
  destruct (exec me r (tables s)) as [x d']; cbn [snd] in *.
  split; [reflexivity | exact He].
Qed.

Lemma perform_keeps (P : db -> Prop) :
  (forall me d d', effect me d d' -> P d -> P d') ->
  forall me {B} (p : script B) s,
    P (tables s) -> P (tables (snd (perform me p s))).
Proof.
  intros Hstep me B p.
  induction p as [b|A q k IH]; intros s Hs; cbn [perform]; [exact Hs|].
  destruct (answer_effect me q s) as [_ He].
  destruct (answer me q s) as [x s']; cbn [snd] in He.
  apply IH. eapply Hstep; eassumption.
Qed.

(** ** Constraints that every request keeps *)

Lemma NoDup_snoc {A} (l : list A) (x : A) :
  NoDup l -> ~ In x l -> NoDup (l ++ [x]).
Proof.
  intros Hl Hx. apply NoDup_app; [exact Hl | repeat constructor; intros [] | ].
  intros y Hy [<-|[]]. exact (Hx Hy).
Qed.

Lemma NoDup_map_filter {A K} (g : A -> K) (f : A -> bool) (l : list A) :
  NoDup (map g l) -> NoDup (map g (filter f l)).
Proof.
  induction l as [|x l IH]; cbn [map filter]; intros H; [constructor|].
  inversion H as [|? ? Hx Hl]; subst.
  destruct (f x); cbn [map]; [|apply IH, Hl].
  constructor; [|apply IH, Hl].
  intros Hin. apply Hx. apply in_map_iff in Hin as [y [Hy Hin]].
  apply filter_In in Hin as [Hin _]. apply in_map_iff; exists y; auto.
Qed.

Lemma friendship_pair_free d u f :
  friendship_pair_taken d u f = false ->
  ~ In (u, f) (map (fun r => (user_id r, friend_id r)) (friendships d)).
Proof.
  unfold friendship_pair_taken. intros H Hin.
  apply in_map_iff in Hin as [r [E Hr]]. inversion E; subst.
  assert (Ht : existsb (fun r0 => (user_id r0 =? user_id r)%N
                                  && (friend_id r0 =? friend_id r)%N)
                       (friendships d) = true).
  { apply existsb_exists; exists r; split; [exact Hr|]. rewrite !N.eqb_refl; reflexivity. }
  congruence.
Qed.

Lemma like_pair_free d u p :
  like_pair_taken d u p = false ->
  ~ In (u, p) (map (fun r => (l_user_id r, l_post_id r)) (likes d)).
Proof.
  unfold like_pair_taken. intros H Hin.
  apply in_map_iff in Hin as [r [E Hr]]. inversion E; subst.
  assert (Ht : existsb (fun r0 => (l_user_id r0 =? l_user_id r)%N
                                  && (l_post_id r0 =? l_post_id r)%N)
                       (likes d) = true).
  { apply existsb_exists; exists r; split; [exact Hr|]. rewrite !N.eqb_refl; reflexivity. }
  congruence.
Qed.

Lemma map_update_status {K} (g : friendships_row -> K) me fid st rows :
  (forall r, g (set_status st r) = g r) ->
  map g (map (fun r => if (f_id r =? fid)%N && friendship_party me r
                       then set_status st r else r) rows) = map g rows.
Proof.
  intros Hg. rewrite map_map. apply map_ext; intros r.
  destruct ((f_id r =? fid)%N && friendship_party me r); [apply Hg | reflexivity].
Qed.

Lemma effect_likes_unique me d d' :
  effect me d d' -> likes_unique d -> likes_unique d'.
Proof.
  unfold likes_unique; intros He H; destruct He; cbn [likes set_friendships set_likes
    set_posts bump_uuid]; try exact H.
  - rewrite map_app. apply NoDup_snoc; [exact H|]. apply like_pair_free; assumption.
  - apply NoDup_map_filter, H.
Qed.

Lemma effect_friendships_unique me d d' :
  effect me d d' -> friendships_unique d -> friendships_unique d'.
Proof.
  unfold friendships_unique; intros He H; destruct He;
    cbn [friendships set_friendships set_likes set_posts bump_uuid]; try exact H.
  - rewrite map_app. apply NoDup_snoc; [exact H|]. apply friendship_pair_free; assumption.
  - rewrite map_update_status; [exact H | reflexivity].
  - apply NoDup_map_filter, H.
Qed.

Lemma update_likes_count_ids f me pid ps ps' :
  update_likes_count f me pid ps = Some ps' -> map post_id ps' = map post_id ps.
Proof.
  revert ps'; induction ps as [|r rest IH]; cbn [update_likes_count]; intros ps' E.
  - inversion E; reflexivity.
  - destruct (update_likes_count f me pid rest) as [rest'|]; [|discriminate].
    specialize (IH rest' eq_refl).
    destruct ((post_id r =? pid)%N && post_owner me r).
    + destruct (f (likes_count r)); [|discriminate].
      inversion E; subst; cbn [map post_id]. rewrite IH; reflexivity.
    + inversion E; subst; cbn [map]. rewrite IH; reflexivity.
Qed.

Lemma existsb_of_map {A K} (f : K -> bool) (g : A -> K) (l : list A) :
  existsb f (map g l) = existsb (fun x => f (g x)) l.
Proof. induction l as [|x l IH]; cbn [map existsb]; [|rewrite IH]; reflexivity. Qed.

Lemma has_post_by_ids d d' :
  map post_id (posts d') = map post_id (posts d) ->
  forall p, has_post d' p = has_post d p.
Proof.
  intros E p. unfold has_post.
  transitivity (existsb (fun i => (i =? p)%N) (map post_id (posts d'))).
  - symmetry; apply (existsb_of_map (fun i => (i =? p)%N) post_id).
  - rewrite E. apply (existsb_of_map (fun i => (i =? p)%N) post_id).
Qed.

Lemma effect_references_hold me d d' :
  effect me d d' -> references_hold d -> references_hold d'.
Proof.
  unfold references_hold; intros He [Hf Hl]; destruct He.
  - auto.
  - split; [|exact Hl].
    intros r Hr. cbn [friendships set_friendships bump_uuid] in Hr.
    apply in_app_or in Hr as [Hr|[<-|[]]]; [apply Hf, Hr|].
    cbn [user_id friend_id]. split; assumption.
  - split; [|exact Hl].
    intros r Hr. cbn [friendships set_friendships] in Hr.
    apply in_map_iff in Hr as [r0 [E Hr0]]. specialize (Hf r0 Hr0).
    destruct ((f_id r0 =? fid)%N && friendship_party me r0); subst r; exact Hf.
  - split; [|exact Hl].
    intros r Hr. cbn [friendships set_friendships] in Hr.
    apply filter_In in Hr as [Hr _]. apply Hf, Hr.
  - split; [exact Hf|].
    intros r Hr. cbn [likes set_likes bump_uuid] in Hr.
    apply in_app_or in Hr as [Hr|[<-|[]]]; [apply Hl, Hr|].
    cbn [l_user_id l_post_id]. split; assumption.
  - split; [exact Hf|].
    intros r Hr. cbn [likes set_likes] in Hr.
    apply filter_In in Hr as [Hr _]. apply Hl, Hr.
  - split; [exact Hf|].
    intros r Hr. cbn [likes set_posts] in Hr. destruct (Hl r Hr) as [H1 H2].
    split; [exact H1|].
    rewrite (has_post_by_ids d (set_posts d ps)); [exact H2|].
    cbn [posts set_posts]. eapply update_likes_count_ids; eassumption.
Qed.

(** X1. At most one like per user and post: whatever programs the
    sessions run and however their requests interleave, the likes table
    never holds two rows with the same (user_id, post_id). *)
Theorem likes_stay_unique (d : db) :
  likes_unique d ->
  (forall me B (p : prog B), likes_unique (snd (run me p d)))
  /\ (forall B schedule (ss : list (session B)),
         likes_unique (snd (interleave schedule ss d))).
Proof.
  intros H; split.
  - intros me B p. apply (run_keeps likes_unique effect_likes_unique), H.
  - intros B schedule ss.
    apply (interleave_keeps likes_unique effect_likes_unique), H.
Qed.

(** X2. At most one request per ordered pair: the friendships table never
    holds two rows with the same (user_id, friend_id), under any programs
    and interleaving. *)
Theorem friendships_stay_unique (d : db) :
  friendships_unique d ->
  (forall me B (p : prog B), friendships_unique (snd (run me p d)))
  /\ (forall B schedule (ss : list (session B)),
         friendships_unique (snd (interleave schedule ss d))).
Proof.
  intros H; split.
  - intros me B p. apply (run_keeps friendships_unique effect_friendships_unique), H.
  - intros B schedule ss.
    apply (interleave_keeps friendships_unique effect_friendships_unique), H.
Qed.

(** X3. Foreign keys: every friendship keeps pointing at two existing
    profiles and every like at an existing profile and an existing post,
    under any programs and interleaving. *)
Theorem references_keep_holding (d : db) :
  references_hold d ->
  (forall me B (p : prog B), references_hold (snd (run me p d)))
  /\ (forall B schedule (ss : list (session B)),
         references_hold (snd (interleave schedule ss d))).
Proof.
  intros H; split.
  - intros me B p. apply (run_keeps references_hold effect_references_hold), H.
  - intros B schedule ss.
    apply (interleave_keeps references_hold effect_references_hold), H.
Qed.

(** ** Rows of other users *)

Lemma filter_filter_weaker {A} (f g : A -> bool) (l : list A) :
  (forall x, f x = true -> g x = true) -> filter f (filter g l) = filter f l.
Proof.
  intros H; induction l as [|x l IH]; cbn [filter]; [reflexivity|].
  destruct (g x) eqn:Eg; cbn [filter].
  - rewrite IH; reflexivity.
  - destruct (f x) eqn:Ef; [|exact IH].
    rewrite (H x Ef) in Eg; discriminate.
Qed.

Lemma filter_map_fixed {A} (f : A -> bool) (g : A -> A) (l : list A) :
  (forall x, f x = false -> g x = x) -> (forall x, f x = true -> f (g x) = true) ->
  filter (fun x => negb (f x)) (map g l) = filter (fun x => negb (f x)) l.
Proof.
  intros H1 H2; induction l as [|x l IH]; cbn [map filter]; [reflexivity|].
  destruct (f x) eqn:Ef.
  - rewrite (H2 x Ef); cbn [negb]. exact IH.
  - rewrite (H1 x Ef), Ef; cbn [negb]. rewrite IH; reflexivity.
Qed.

Lemma update_likes_count_others f me pid ps ps' :
  update_likes_count f me pid ps = Some ps' ->
  filter (fun r => negb (post_owner me r)) ps'
  = filter (fun r => negb (post_owner me r)) ps.
Proof.
  revert ps'; induction ps as [|r rest IH]; cbn [update_likes_count]; intros ps' E.
  - inversion E; reflexivity.
  - destruct (update_likes_count f me pid rest) as [rest'|]; [|discriminate].
    specialize (IH rest' eq_refl).
    destruct ((post_id r =? pid)%N && post_owner me r) eqn:Em.
    + destruct (f (likes_count r)); [|discriminate].
      inversion E; subst; cbn [filter].
      apply andb_true_iff in Em as [_ Ho].
      unfold post_owner in *; cbn [post_user_id]. rewrite Ho; cbn [negb]. exact IH.
    + inversion E; subst; cbn [filter]. rewrite IH; reflexivity.
Qed.

(** X4. Row-level security of the writes: whatever program the session of
    [me] runs, the friendships of which [me] is no party, the likes of
    other users and the posts of other users are afterwards exactly what
    they were (none added, changed or removed), and no profile changes. *)
Theorem session_changes_own_rows_only (me : uuid) (B : Type) (p : prog B) (d : db) :
  filter (fun r => negb (friendship_party me r)) (friendships (snd (run me p d)))
  = filter (fun r => negb (friendship_party me r)) (friendships d)
  /\ filter (fun r => negb (like_owner me r)) (likes (snd (run me p d)))
     = filter (fun r => negb (like_owner me r)) (likes d)
  /\ filter (fun r => negb (post_owner me r)) (posts (snd (run me p d)))
     = filter (fun r => negb (post_owner me r)) (posts d)
  /\ profiles (snd (run me p d)) = profiles d.
Proof.
  apply (run_effects
    (fun d d' =>
       filter (fun r => negb (friendship_party me r)) (friendships d')
       = filter (fun r => negb (friendship_party me r)) (friendships d)
       /\ filter (fun r => negb (like_owner me r)) (likes d')
          = filter (fun r => negb (like_owner me r)) (likes d)
       /\ filter (fun r => negb (post_owner me r)) (posts d')
          = filter (fun r => negb (post_owner me r)) (posts d)
       /\ profiles d' = profiles d) me).
  - intros d0; repeat split.
  - intros d1 d2 d3 [A1 [A2 [A3 A4]]] [B1 [B2 [B3 B4]]].
    repeat split; congruence.
  - intros d0 d' He; destruct He;
      cbn [friendships likes posts profiles set_friendships set_likes set_posts
           bump_uuid]; repeat split.
    + rewrite filter_app; cbn [filter]. unfold friendship_party at 2; cbn [user_id].
      rewrite N.eqb_refl; cbn [orb negb]. apply app_nil_r.
    + apply (filter_map_fixed (friendship_party me)).
      * intros r Hr. rewrite Hr, andb_false_r; reflexivity.
      * intros r Hr. destruct ((f_id r =? fid)%N && friendship_party me r);
          [exact Hr | exact Hr].
    + apply filter_filter_weaker. intros r Hr.
      apply negb_true_iff in Hr. rewrite Hr, andb_false_r; reflexivity.
    + rewrite filter_app; cbn [filter]. unfold like_owner at 2; cbn [l_user_id].
      rewrite N.eqb_refl; cbn [negb]. apply app_nil_r.
    + apply filter_filter_weaker. intros r Hr.
      apply negb_true_iff in Hr. rewrite Hr, andb_false_r; reflexivity.
    + eapply update_likes_count_others; eassumption.
Qed.

(** ** The two counter functions one after the other *)

Lemma posts_row_eta (r : posts_row) :
  {| post_id := post_id r; post_user_id := post_user_id r;
     likes_count := likes_count r |} = r.
Proof. destruct r; reflexivity. Qed.

Lemma increment_then_decrement_rows me pid ps :
  (forall r, In r ps -> (post_id r =? pid)%N && post_owner me r = true ->
             exists n, likes_count r = Some n /\ (0 <= n < int4_max)%Z) ->
  exists ps1, update_likes_count plus_one me pid ps = Some ps1
              /\ update_likes_count greatest_minus_one_0 me pid ps1 = Some ps.
Proof.
  induction ps as [|r rest IH]; intros H; [exists []; split; reflexivity|].
  destruct IH as [rest1 [E1 E2]]; [intros r0 Hr0; apply H; right; exact Hr0|].
  cbn [update_likes_count]. rewrite E1.
  destruct ((post_id r =? pid)%N && post_owner me r) eqn:Em.
  - destruct (H r (or_introl eq_refl) Em) as [n [En Hn]].
    rewrite En; cbn [plus_one].
    assert (Hin : in_int4 (n + 1) = true).
    { unfold in_int4, int4_min, int4_max in *. apply andb_true_iff; split;
        apply Z.leb_le; lia. }
    rewrite Hin. eexists; split; [reflexivity|].
    cbn [update_likes_count post_id post_user_id likes_count]. rewrite E2.
    unfold post_owner in *; cbn [post_user_id]. rewrite Em.
    cbn [greatest_minus_one_0].
    assert (Hin' : in_int4 (n + 1 - 1) = true).
    { unfold in_int4, int4_min, int4_max in *. apply andb_true_iff; split;
        apply Z.leb_le; lia. }
    rewrite Hin'. replace (Z.max (n + 1 - 1) 0) with n by lia.
    rewrite <- En, posts_row_eta. reflexivity.
  - eexists; split; [reflexivity|].
    cbn [update_likes_count]. rewrite E2, Em. reflexivity.
Qed.

(** X5. For the owner of a post whose counter is between 0 and the largest
    32-bit integer (excluded), [increment_likes] followed by
    [decrement_likes] gives back the store as it was, and neither reports
    an error. *)
Theorem increment_then_decrement (me pid : uuid) (d : db) :
  (forall r, In r (posts d) -> (post_id r =? pid)%N && post_owner me r = true ->
             exists n, likes_count r = Some n /\ (0 <= n < int4_max)%Z) ->
  snd (decrement_likes me pid (snd (increment_likes me pid d))) = d
  /\ error (fst (increment_likes me pid d)) = None
  /\ error (fst (decrement_likes me pid (snd (increment_likes me pid d)))) = None.
Proof.
  intros H. destruct (increment_then_decrement_rows me pid (posts d) H) as [ps1 [E1 E2]].
  unfold increment_likes, decrement_likes, rpc_update. rewrite E1; cbn [snd fst posts set_posts].
  rewrite E2; cbn [snd fst error no_data]. repeat split. destruct d; reflexivity.
Qed.

(** ** From a request to a friend *)

Lemma has_profile_find d u :
  has_profile d u = true ->
  exists p, find_profile d u = Some p /\ p_id p = u.
Proof.
  unfold has_profile, find_profile. intros H.
  apply existsb_exists in H as [p [Hp Hid]].
  destruct (find (fun p0 => (p_id p0 =? u)%N) (profiles d)) as [p'|] eqn:E.
  - exists p'; split; [reflexivity|]. apply find_some in E as [_ E]. apply N.eqb_eq, E.
  - apply (find_none _ _ E) in Hp. congruence.
Qed.

Lemma loadFriends_lists_outgoing X d fs f :
  fst (run X (loadFriends X) d) = Completed fs -> In f fs ->
  exists r, In r (friendships d) /\ friendship_id f = Some (f_id r)
            /\ user_id r = X /\ status r = "accepted".
Proof.
  cbn [run exec loadFriends fst]; simpl.
  intros E Hf; inversion E; subst; clear E.
  apply in_map_iff in Hf as [item [<- Hitem]].
  apply in_flat_map in Hitem as [r [Hr Hitem]].
  apply filter_In in Hr as [Hr Hcond].
  apply andb_true_iff in Hcond as [Hcond Hst].
  apply andb_true_iff in Hcond as [_ Hfr].
  unfold embed in Hitem.
  destruct (find_profile d (friend_id r)); simpl in Hitem; [|contradiction].
  destruct Hitem as [<-|[]]; simpl.
  exists r; repeat split; auto.
  - apply N.eqb_eq, Hfr.
  - apply String.eqb_eq, Hst.
Qed.

(** X6. From request to friend. When [A] and [B] have profiles and [A] has
    no request to [B] yet: after [sendFriendRequest] by [A], the requests
    tab of [B] lists [A] with the new record, pending; after [B] then
    accepts that record, the friends tab of [A] lists [B] with it. *)
Theorem request_accept_listed (A B : uuid) (d : db) :
  has_profile d A = true -> has_profile d B = true ->
  friendship_pair_taken d A B = false ->
  let d1 := snd (run A (sendFriendRequest A B) d) in
  let d2 := snd (run B (acceptRequest B (next_uuid d)) d1) in
  exists pA pB requests friends,
    find_profile d A = Some pA /\ find_profile d B = Some pB
    /\ fst (run B (loadRequests B) d1) = Completed requests
    /\ In {| profile := pA; friendship_id := Some (next_uuid d);
             Friend_status := Some "pending" |} requests
    /\ fst (run A (loadFriends A) d2) = Completed friends
    /\ In {| profile := pB; friendship_id := Some (next_uuid d);
             Friend_status := None |} friends.
Proof.
  intros HA HB Hfree d1 d2.
  destruct (has_profile_find d A HA) as [pA [EA _]].
  destruct (has_profile_find d B HB) as [pB [EB _]].
  assert (E1 : d1 = add_request d A B).
  { unfold d1. rewrite run_sendFriendRequest, Hfree, HA, HB. reflexivity. }
  exists pA, pB. eexists. eexists.
  split; [exact EA|]. split; [exact EB|].
  split; [reflexivity|]. split; [|split; [reflexivity|]].
  - cbn [run exec loadRequests fst error data select_by_friend_id ok or_empty].
    apply in_map_iff.
    exists {| fw_id := next_uuid d; fw_profiles := pA |}. split; [reflexivity|].
    apply in_flat_map. exists (new_request d A B). split.
    + apply filter_In. split.
      * rewrite E1. unfold add_request; cbn [friendships bump_uuid set_friendships].
        apply in_or_app; right; left; reflexivity.
      * unfold friendship_party, new_request; cbn [user_id friend_id status].
        rewrite N.eqb_refl, orb_true_r. reflexivity.
    + unfold embed, find_profile. rewrite E1.
      unfold add_request, new_request; cbn [profiles bump_uuid set_friendships user_id f_id].
      fold (find_profile d A). rewrite EA. left; reflexivity.
  - cbn [run exec loadFriends fst error data select_by_user_id ok or_empty].
    apply in_map_iff.
    exists {| fw_id := next_uuid d; fw_profiles := pB |}. split; [reflexivity|].
    apply in_flat_map. exists (set_status "accepted" (new_request d A B)). split.
    + apply filter_In. split.
      * unfold d2. cbn [run exec acceptRequest snd update_friendships_status error
                        no_data friendships set_friendships].
        assert (Hd2 : forall o, friendships (snd (run B (reloaded <- loadRequests B ;;
                       Ret (Completed reloaded)) o)) = friendships o) by reflexivity.
        rewrite Hd2. cbn [friendships set_friendships].
        apply in_map_iff. exists (new_request d A B). split.
        -- unfold new_request, friendship_party; cbn [f_id user_id friend_id].
           rewrite !N.eqb_refl, orb_true_r. reflexivity.
        -- rewrite E1. unfold add_request; cbn [friendships bump_uuid set_friendships].
           apply in_or_app; right; left; reflexivity.
      * unfold friendship_party, set_status, new_request;
          cbn [user_id friend_id status].
        rewrite N.eqb_refl. reflexivity.
    + unfold embed, find_profile.
      assert (Hp : profiles d2 = profiles d).
      { unfold d2. rewrite E1. reflexivity. }
      rewrite Hp. unfold set_status, new_request; cbn [friend_id f_id].
      fold (find_profile d B). rewrite EB. left; reflexivity.
Qed.

(** X7. What the handlers reload: after [acceptRequest] or [rejectRequest]
    of a record the reloaded requests list no longer holds that record, and
    after [removeFriend] the reloaded friends list no longer holds it. *)
Theorem reloaded_lists_drop_the_record (X fid : uuid) (d : db) :
  (exists fs, fst (run X (acceptRequest X fid) d) = Completed (Completed fs)
              /\ forall f, In f fs -> friendship_id f <> Some fid)
  /\ (exists fs, fst (run X (rejectRequest X fid) d) = Completed (Completed fs)
                 /\ forall f, In f fs -> friendship_id f <> Some fid)
  /\ (exists fs, fst (run X (removeFriend X fid) d) = Completed (Completed fs)
                 /\ forall f, In f fs -> friendship_id f <> Some fid).
Proof.
  split; [|split].
  - eexists; split; [reflexivity|]. intros f Hf Hid.
    eapply loadRequests_lists_incoming in Hf as [r [Hr [Ef [Hfr Hst]]]]; [|reflexivity].
    rewrite Hid in Ef. inversion Ef as [Eid]. clear Ef.
    cbn [snd update_friendships_status friendships set_friendships] in Hr.
    apply in_map_iff in Hr as [r0 [E Hr0]].
    destruct ((f_id r0 =? fid)%N && friendship_party X r0) eqn:Em.
    + subst r. unfold set_status in Hst; cbn [status] in Hst. discriminate.
    + subst r0. rewrite <- Eid, N.eqb_refl in Em. cbn [andb] in Em.
      unfold friendship_party in Em. rewrite Hfr, N.eqb_refl, orb_true_r in Em.
      discriminate.
  - eexists; split; [reflexivity|]. intros f Hf Hid.
    eapply loadRequests_lists_incoming in Hf as [r [Hr [Ef [Hfr Hst]]]]; [|reflexivity].
    rewrite Hid in Ef. inversion Ef as [Eid]. clear Ef.
    cbn [snd delete_from_friendships friendships set_friendships] in Hr.
    apply filter_In in Hr as [_ Hkeep].
    rewrite <- Eid, N.eqb_refl in Hkeep. cbn [andb] in Hkeep.
    unfold friendship_party in Hkeep. rewrite Hfr, N.eqb_refl, orb_true_r in Hkeep.
    discriminate.
  - eexists; split; [reflexivity|]. intros f Hf Hid.
    eapply loadFriends_lists_outgoing in Hf as [r [Hr [Ef [Hfr Hst]]]]; [|reflexivity].
    rewrite Hid in Ef. inversion Ef as [Eid]. clear Ef.
    cbn [snd delete_from_friendships friendships set_friendships] in Hr.
    apply filter_In in Hr as [_ Hkeep].
    rewrite <- Eid, N.eqb_refl in Hkeep. cbn [andb] in Hkeep.
    unfold friendship_party in Hkeep. rewrite Hfr, N.eqb_refl in Hkeep.
    discriminate.
Qed.

(** ** What the screens let the user send *)

Lemma between_sym a b r : between a b r = between b a r.
Proof. unfold between. apply orb_comm. Qed.

Lemma between_new_request d me p a b :
  between a b (new_request d me p) = true ->
  forall r, between a b r = between me p r.
Proof.
  unfold between, new_request; cbn [user_id friend_id]. intros H r.
  apply orb_true_iff in H as [H|H]; apply andb_true_iff in H as [H1 H2];
    apply N.eqb_eq in H1, H2; subst a b; [reflexivity | apply orb_comm].
Qed.

Lemma add_request_one_record d me p :
  one_record_per_pair d ->
  filter (between me p) (friendships d) = [] ->
  one_record_per_pair (add_request d me p).
Proof.
  intros H Hnone a b. unfold add_request; cbn [friendships bump_uuid set_friendships].
  rewrite filter_app, length_app. cbn [filter].
  destruct (between a b (new_request d me p)) eqn:Hb.
  - rewrite (filter_ext _ _ (between_new_request d me p a b Hb)), Hnone. cbn; lia.
  - specialize (H a b). cbn [List.length]. lia.
Qed.

Lemma filter_between_nil_free d me p :
  filter (between me p) (friendships d) = [] -> friendship_pair_taken d me p = false.
Proof.
  intros H. unfold friendship_pair_taken.
  destruct (existsb (fun r => (user_id r =? me)%N && (friend_id r =? p)%N)
                    (friendships d)) eqn:E; [|reflexivity].
  apply existsb_exists in E as [r [Hr Hc]].
  assert (Hin : In r (filter (between me p) (friendships d))).
  { apply filter_In; split; [exact Hr|]. unfold between. rewrite Hc. reflexivity. }
  rewrite H in Hin. contradiction.
Qed.

Lemma run_sendFriendRequest_one_record me p d :
  one_record_per_pair d ->
  filter (between me p) (friendships d) = [] ->
  one_record_per_pair (snd (run me (sendFriendRequest me p) d)).
Proof.
  intros H Hnone. rewrite run_sendFriendRequest.
  rewrite (filter_between_nil_free d me p Hnone).
  destruct (has_profile d me && has_profile d p); cbn [snd]; [|exact H].
  apply add_request_one_record; assumption.
Qed.

Lemma searchUsers_results_annotated me q d fs :
  fst (run me (searchUsers me q) d) = Completed fs ->
  forall f, In f fs -> f = annotate d me (profile f).
Proof.
  unfold searchUsers. destruct (is_blank q).
  - cbn [run fst]; intros E; inversion E; subst; contradiction.
  - cbn [run exec]. unfold select_profiles_ilike.
    destruct (breaks_or_filter q); cbn [error data failed ok or_empty run fst];
      [discriminate|].
    rewrite run_then_Completed.
    match goal with |- context [with_status me ?l] => set (ps := l) end.
    destruct (with_status_profiles me ps d) as [E1 _]. rewrite E1. cbn [fst].
    intros E f Hf; inversion E; subst; clear E.
    apply in_map_iff in Hf as [p [<- _]]. reflexivity.
Qed.

Lemma known_status_truthy st :
  st = "pending" \/ st = "accepted" -> truthy (Some st) = true.
Proof. intros [->| ->]; reflexivity. Qed.

Lemma one_record_cases d a b :
  one_record_per_pair d ->
  filter (between a b) (friendships d) = []
  \/ exists r, filter (between a b) (friendships d) = [r].
Proof.
  intros H. specialize (H a b).
  destruct (filter (between a b) (friendships d)) as [|r [|r' l]];
    [left; reflexivity | right; exists r; reflexivity | cbn in H; lia].
Qed.

(** X8. The friends screen keeps one record per pair. In a store with at
    most one record for any two profiles, whose statuses are pending or
    accepted: for every result of a search that is shown with its Add
    button enabled, no record exists for the caller and that profile, and
    pressing the button ([sendFriendRequest]) leaves at most one record
    for any two profiles. *)
Theorem add_button_keeps_one_record (me : uuid) (q : text) (d : db)
    (fs : list Friend) (f : Friend) :
  one_record_per_pair d -> statuses_known d ->
  fst (run me (searchUsers me q) d) = Completed fs -> In f fs ->
  add_disabled f = false ->
  filter (between me (p_id (profile f))) (friendships d) = []
  /\ one_record_per_pair (snd (run me (sendFriendRequest me (p_id (profile f))) d)).
Proof.
  intros Hone Hknown Hrun Hf Hadd.
  assert (Hnone : filter (between me (p_id (profile f))) (friendships d) = []).
  { destruct (one_record_cases d me (p_id (profile f)) Hone) as [E|[r E]]; [exact E|].
    exfalso. rewrite (searchUsers_results_annotated me q d fs Hrun f Hf) in Hadd.
    unfold add_disabled, annotate, relationship in Hadd; cbn [Friend_status profile] in Hadd.
    rewrite E in Hadd. cbn [map maybeSingle ok data option_map snd] in Hadd.
    rewrite known_status_truthy in Hadd; [discriminate|].
    apply Hknown. apply (proj1 (filter_In (between me (p_id (profile f))) r (friendships d))).
    rewrite E. left; reflexivity. }
  split; [exact Hnone|]. apply run_sendFriendRequest_one_record; assumption.
Qed.

Lemma select_between_own me b d :
  select_between me me b d = relationship d me b.
Proof.
  unfold select_between, relationship. do 2 f_equal.
  apply filter_ext; intros r.
  destruct (between me b r) eqn:Hb; [|apply andb_false_r].
  rewrite (between_same_parties me b me r (or_introl eq_refl) Hb). reflexivity.
Qed.

Lemma effect_one_record_unless_added me d fid :
  one_record_per_pair d ->
  one_record_per_pair (snd (delete_from_friendships me fid d)).
Proof.
  intros H a b. cbn [snd delete_from_friendships friendships set_friendships].
  specialize (H a b).
  assert (Hle : forall (f g : friendships_row -> bool) l,
             (List.length (filter f (filter g l)) <= List.length (filter f l))%nat).
  { intros f g l; induction l as [|x l IH]; cbn [filter]; [lia|].
    destruct (g x); cbn [filter]; destruct (f x); cbn [List.length]; lia. }
  eapply Nat.le_trans; [apply Hle | exact H].
Qed.

Lemma perform_loadUserProfile me id scr s :
  error (select_profile id (tables s)) = None ->
  fst (perform me (loadUserProfile me id scr) s) =
  Completed
    {| userProfile := data (select_profile id (tables s));
       friendshipStatus :=
         match data (relationship (tables s) me id) with
         | Some friendshipData => Some (snd friendshipData)
         | None => friendshipStatus scr
         end;
       friendshipId :=
         match data (relationship (tables s) me id) with
         | Some friendshipData => Some (fst friendshipData)
         | None => friendshipId scr
         end;
       stats :=
         {| stat_posts := or_zero (data (count_posts id (tables s)));
            stat_friends :=
              or_zero (data (count_friendships me id "accepted" (tables s))) |} |}.
Proof.
  intros Hp. unfold loadUserProfile. cbn [perform answer]. rewrite Hp.
  cbn [perform answer exec]. rewrite select_between_own.
  cbn [and_then loadStats perform answer set_tables tables fst]. reflexivity.
Qed.

(** X9. The profile screen keeps one record per pair. In a store with at
    most one record for any two profiles, whose statuses are pending or
    accepted: once a freshly mounted profile screen has loaded, pressing
    its friend button ([handleFriendAction]) leaves at most one record for
    any two profiles; on a pending record it sends nothing at all. *)
Theorem friend_button_keeps_one_record (me id : uuid) (s : store)
    (scr : UserProfileScreen) :
  one_record_per_pair (tables s) -> statuses_known (tables s) ->
  fst (perform me (loadUserProfile me id mounted) s) = Completed scr ->
  one_record_per_pair
    (snd (run me (handleFriendAction me id (friendshipStatus scr) (friendshipId scr))
              (tables s)))
  /\ (friendshipStatus scr = Some "pending" ->
      requests_sent me (handleFriendAction me id (friendshipStatus scr) (friendshipId scr))
                    (tables s) = 0%nat).
Proof.
  intros Hone Hknown Hload.
  destruct (error (select_profile id (tables s))) as [e|] eqn:Hp.
  { unfold loadUserProfile in Hload. cbn [perform answer] in Hload.
    rewrite Hp in Hload. discriminate. }
  rewrite (perform_loadUserProfile me id mounted s Hp) in Hload.
  inversion Hload; subst scr; clear Hload. cbn [friendshipStatus friendshipId].
  unfold relationship.
  destruct (one_record_cases (tables s) me id Hone) as [E|[r E]]; rewrite E;
    cbn [map maybeSingle data no_data ok mounted friendshipStatus friendshipId fst snd].
  - split; [|discriminate].
    unfold handleFriendAction, requestFriendship.
    change (snd (run me (await x <- friendships_insert me id "pending" ;;
                 match error x, data x with
                 | Some e, _ => Ret (Caught "Error managing friendship:" (store_error e))
                 | None, Some row => Ret (Completed (Some "pending", Some (f_id row)))
                 | None, None => Ret (Caught "Error managing friendship:" type_error)
                 end) (tables s)))
      with (snd (let (x, d') := insert_into_friendships me me id "pending" (tables s) in
                 run me (match error x, data x with
                 | Some e, _ => Ret (Caught "Error managing friendship:" (store_error e))
                 | None, Some row => Ret (Completed (Some "pending", Some (f_id row)))
                 | None, None => Ret (Caught "Error managing friendship:" type_error)
                 end) d')).
    rewrite insert_own_request, (filter_between_nil_free (tables s) me id E).
    destruct (has_profile (tables s) me && has_profile (tables s) id); cbn.
    + apply add_request_one_record; assumption.
    + exact Hone.
  - assert (Hr : In r (friendships (tables s))).
    { apply (proj1 (filter_In (between me id) r (friendships (tables s)))).
      rewrite E. left; reflexivity. }
    destruct (Hknown r Hr) as [Hst|Hst]; rewrite Hst.
    + split; [exact Hone | reflexivity].
    + split; [|discriminate].
      cbn [handleFriendAction String.eqb Ascii.eqb Bool.eqb run exec].
      apply effect_one_record_unless_added, Hone.
Qed.

(** X10. Reloading the profile screen never clears the friendship state.
    When no record is found for the caller and the profile (for instance
    because the other side has deleted it since the last load), status and
    record id stay what the screen held; a screen that held a pending
    status keeps its friend button without effect. *)
Theorem reload_keeps_the_friendship_state (me id : uuid) (s : store)
    (scr : UserProfileScreen) :
  error (select_profile id (tables s)) = None ->
  filter (between me id) (friendships (tables s)) = [] ->
  exists scr',
    fst (perform me (loadUserProfile me id scr) s) = Completed scr'
    /\ friendshipStatus scr' = friendshipStatus scr
    /\ friendshipId scr' = friendshipId scr
    /\ (friendshipStatus scr = Some "pending" ->
        requests_sent me
          (handleFriendAction me id (friendshipStatus scr') (friendshipId scr'))
          (tables s) = 0%nat).
Proof.
  intros Hp Hnone. eexists. split; [apply perform_loadUserProfile, Hp|].
  unfold relationship. rewrite Hnone.
  cbn [map maybeSingle data no_data friendshipStatus friendshipId].
  repeat split. intros ->. reflexivity.
Qed.

(** ** The numbers on the profile screens *)

Lemma NoDup_map_filter_key {A K} (g : A -> K) (f : A -> bool) (k : K) (l : list A) :
  NoDup (map g l) -> (forall x, f x = true -> g x = k) ->
  (List.length (filter f l) <= 1)%nat.
Proof.
  intros Hnd Hk. induction l as [|x l IH]; cbn [filter]; [cbn; lia|].
  inversion Hnd as [|? ? Hx Hl]; subst. specialize (IH Hl).
  destruct (f x) eqn:Ef; [|exact IH].
  assert (Hnil : filter f l = []).
  { apply filter_none. intros y Hy. destruct (f y) eqn:Efy; [|reflexivity].
    exfalso. apply Hx. rewrite (Hk x Ef), <- (Hk y Efy). apply in_map, Hy. }
  rewrite Hnil. cbn; lia.
Qed.

(** X11. The Friends number on another user's profile. RLS shows the
    viewer only the friendships he is a party of, and [loadStats] counts
    the accepted rows whose user_id is the profile's: on the profile of
    anyone else the number is 0 or 1, however many friends that user has. *)
Theorem friends_stat_of_others (me id : uuid) (s : store) :
  me <> id -> friendships_unique (tables s) ->
  exists st, fst (perform me (loadStats id) s) = Completed st
             /\ (stat_friends st <= 1)%nat
             /\ stat_posts st
                = List.length (filter (fun r => (post_user_id r =? id)%N)
                                      (posts (tables s))).
Proof.
  intros Hne Huniq. eexists. split; [reflexivity|].
  cbn [stat_friends stat_posts or_zero data count_friendships count_posts ok].
  split; [|reflexivity].
  apply (NoDup_map_filter_key (fun r => (user_id r, friend_id r)) _ (id, me));
    [exact Huniq|].
  intros r Hr. apply andb_true_iff in Hr as [Hr _].
  apply andb_true_iff in Hr as [Hparty Hu].
  apply N.eqb_eq in Hu. unfold friendship_party in Hparty.
  apply orb_true_iff in Hparty as [Hp|Hp]; apply N.eqb_eq in Hp.
  - congruence.
  - rewrite Hu, <- Hp. reflexivity.
Qed.

Lemma length_flat_map_embed d via rows :
  (forall r, In r rows -> has_profile d (via r) = true) ->
  List.length (flat_map (embed d via) rows) = List.length rows.
Proof.
  induction rows as [|r rows IH]; intros H; [reflexivity|].
  cbn [flat_map]. rewrite length_app, IH by (intros r0 Hr0; apply H; right; exact Hr0).
  destruct (has_profile_find d (via r) (H r (or_introl eq_refl))) as [p [Ep _]].
  unfold embed. rewrite Ep. reflexivity.
Qed.

(** X12. The Friends number on the own profile equals the number of
    entries of the friends tab, when the foreign keys hold: both count the
    accepted requests that the user sent. *)
Theorem friends_stat_is_friends_tab (me : uuid) (s : store) :
  references_hold (tables s) ->
  exists st fs,
    fst (perform me (loadStats me) s) = Completed st
    /\ fst (run me (loadFriends me) (tables s)) = Completed fs
    /\ stat_friends st = List.length fs.
Proof.
  intros [Hf _]. eexists. eexists. split; [reflexivity|]. split; [reflexivity|].
  cbn [stat_friends or_zero data count_friendships ok select_by_user_id or_empty].
  rewrite length_map, length_flat_map_embed; [reflexivity|].
  intros r Hr. apply filter_In in Hr as [Hr _]. apply (Hf r Hr).
Qed.

(** ** The heart of a post *)

Lemma perform_liked_by_user_of me p s :
  fst (perform me (liked_by_user_of me p) s) =
  match data (select_like p me (tables s)) with Some _ => true | None => false end.
Proof. reflexivity. Qed.

Lemma like_rows_free d me p :
  like_pair_taken d me p = false ->
  filter (fun r => (l_post_id r =? p)%N && (l_user_id r =? me)%N) (likes d) = [].
Proof.
  intros H. apply filter_none. intros r Hr.
  destruct ((l_post_id r =? p)%N && (l_user_id r =? me)%N) eqn:E; [|reflexivity].
  apply andb_true_iff in E as [E1 E2].
  assert (Ht : like_pair_taken d me p = true).
  { unfold like_pair_taken. apply existsb_exists. exists r. split; [exact Hr|].
    rewrite E1, E2. reflexivity. }
  congruence.
Qed.

Lemma likes_after_rpc f me p d : likes (snd (rpc_update f me p d)) = likes d.
Proof.
  unfold rpc_update. destruct (update_likes_count f me p (posts d)); reflexivity.
Qed.

(** X13. Like, reload, unlike, reload. When the user has a profile, the
    post exists and he has no like on it: after [handleLike] on the
    not-liked post the feed's lookup finds his like (liked_by_user is
    true); after [handleLike] on the liked post the lookup finds none, and
    the likes table is what it was before the two presses. *)
Theorem like_unlike_round_trip (me p : uuid) (d : db) :
  has_profile d me = true -> has_post d p = true ->
  like_pair_taken d me p = false ->
  let d1 := snd (run me (handleLike me p false) d) in
  let d2 := snd (run me (handleLike me p true) d1) in
  fst (perform me (liked_by_user_of me p) (no_messages d)) = false
  /\ fst (perform me (liked_by_user_of me p) (no_messages d1)) = true
  /\ fst (perform me (liked_by_user_of me p) (no_messages d2)) = false
  /\ likes d2 = likes d.
Proof.
  intros Hme Hp Hfree d1 d2.
  assert (L1 : likes d1 = likes d ++ [{| l_id := next_uuid d; l_user_id := me;
                                          l_post_id := p |}]).
  { unfold d1, handleLike. cbn [run exec]. unfold insert_into_likes, like_owner.
    cbn [l_user_id]. rewrite N.eqb_refl, Hfree, Hme, Hp. cbn [negb andb].
    unfold increment_likes.
    destruct (rpc_update plus_one me p _) as [x d'] eqn:E.
    cbn [run snd].
    change d' with (snd (x, d')). rewrite <- E, likes_after_rpc. reflexivity. }
  assert (L2 : likes d2 = likes d).
  { unfold d2, handleLike. cbn [run exec]. unfold delete_from_likes.
    unfold decrement_likes.
    destruct (rpc_update greatest_minus_one_0 me p _) as [x d'] eqn:E.
    cbn [run snd].
    change d' with (snd (x, d')). rewrite <- E, likes_after_rpc.
    cbn [likes set_likes]. rewrite L1, filter_app. cbn [filter l_post_id l_user_id].
    unfold like_owner; cbn [l_user_id]. rewrite !N.eqb_refl. cbn [andb negb].
    rewrite app_nil_r.
    assert (Hall : forall r, In r (likes d) ->
              negb ((l_post_id r =? p)%N && (l_user_id r =? me)%N
                    && (me =? l_user_id r)%N) = true).
    { intros r Hr. pose proof (like_rows_free d me p Hfree) as Hnone.
      destruct ((l_post_id r =? p)%N && (l_user_id r =? me)%N) eqn:Em; [|reflexivity].
      exfalso. assert (Hin : In r (filter (fun r0 => (l_post_id r0 =? p)%N
                                           && (l_user_id r0 =? me)%N) (likes d))).
      { apply filter_In; split; assumption. }
      rewrite Hnone in Hin. contradiction. }
    clear L1. induction (likes d) as [|r l IH]; [reflexivity|].
    cbn [filter]. rewrite (Hall r (or_introl eq_refl)).
    rewrite IH; [reflexivity|]. intros r0 Hr0; apply Hall; right; exact Hr0. }
  rewrite !perform_liked_by_user_of. unfold select_like, no_messages; cbn [tables].
  rewrite L2, L1, filter_app, (like_rows_free d me p Hfree).
  cbn [filter l_post_id l_user_id app]. rewrite !N.eqb_refl. cbn [andb map maybeSingle].
  repeat split.
Qed.

(** X14. The local state of the heart. Pressing the heart of a post twice
    (the second press with the flag that the first one set) gives back the
    displayed list, counters and flags, when the flag passed to the first
    press is the one displayed. *)
Theorem toggle_like_twice (postId : uuid) (isLiked : bool) (prevPosts : list Post) :
  (forall post, In post prevPosts -> Post_id post = postId ->
                liked_by_user post = isLiked) ->
  toggle_like postId (negb isLiked) (toggle_like postId isLiked prevPosts) = prevPosts.
Proof.
  intros H. unfold toggle_like. rewrite map_map.
  rewrite <- (map_id prevPosts) at 2. apply map_ext_in. intros post Hin.
  destruct (Post_id post =? postId)%N eqn:E.
  - cbn [Post_id]. rewrite E.
    apply N.eqb_eq in E. specialize (H post Hin E).
    destruct post as [i c l]; cbn in *. subst l. f_equal.
    + destruct isLiked; cbn; lia.
    + apply negb_involutive.
  - rewrite E. reflexivity.
Qed.

(** ** The time of a message *)

Lemma div_ltb (a b k : Z) :
  (0 < b)%Z -> (a / b <? k)%Z = (a <? k * b)%Z.
Proof.
  intros Hb. destruct (Z.ltb_spec a (k * b)) as [H|H].
  - apply Z.ltb_lt. apply Z.div_lt_upper_bound; lia.
  - apply Z.ltb_ge. apply Z.div_le_lower_bound; lia.
Qed.

(** X15. [formatTime] by the age of the message in milliseconds. Under a
    minute, and for every time in the future, it shows "Just now"; then
    whole minutes from 1 to 59, whole hours from 1 to 23, whole days from
    1 to 6, and from seven days on the date in the device's format. *)
Theorem formatTime_by_age (toLocaleDateString : option Z -> string) (t now : Z) :
  ((now - t < 60000)%Z -> formatTime toLocaleDateString (Some t) now = "Just now")
  /\ ((60000 <= now - t < 3600000)%Z ->
      formatTime toLocaleDateString (Some t) now
        = (decimal ((now - t) / 60000) ++ "m ago")%string
      /\ (1 <= (now - t) / 60000 <= 59)%Z)
  /\ ((3600000 <= now - t < 86400000)%Z ->
      formatTime toLocaleDateString (Some t) now
        = (decimal ((now - t) / 3600000) ++ "h ago")%string
      /\ (1 <= (now - t) / 3600000 <= 23)%Z)
  /\ ((86400000 <= now - t < 604800000)%Z ->
      formatTime toLocaleDateString (Some t) now
        = (decimal ((now - t) / 86400000) ++ "d ago")%string
      /\ (1 <= (now - t) / 86400000 <= 6)%Z)
  /\ ((604800000 <= now - t)%Z ->
      formatTime toLocaleDateString (Some t) now = toLocaleDateString (Some t)).
Proof.
  unfold formatTime. cbv zeta.
  rewrite !div_ltb by lia.
  change (1 * 60000)%Z with 60000%Z. change (60 * 60000)%Z with 3600000%Z.
  change (24 * 3600000)%Z with 86400000%Z. change (7 * 86400000)%Z with 604800000%Z.
  split; [|split; [|split; [|split]]]; intros H.
  - destruct (Z.ltb_spec (now - t) 60000); [reflexivity | lia].
  - split; [|split].
    + destruct (Z.ltb_spec (now - t) 60000); [lia|].
      destruct (Z.ltb_spec (now - t) 3600000); [reflexivity | lia].
    + apply Z.div_le_lower_bound; lia.
    + assert ((now - t) / 60000 < 60)%Z by (apply Z.div_lt_upper_bound; lia). lia.
  - split; [|split].
    + destruct (Z.ltb_spec (now - t) 60000); [lia|].
      destruct (Z.ltb_spec (now - t) 3600000); [lia|].
      destruct (Z.ltb_spec (now - t) 86400000); [reflexivity | lia].
    + apply Z.div_le_lower_bound; lia.
    + assert ((now - t) / 3600000 < 24)%Z by (apply Z.div_lt_upper_bound; lia). lia.
  - split; [|split].
    + destruct (Z.ltb_spec (now - t) 60000); [lia|].
      destruct (Z.ltb_spec (now - t) 3600000); [lia|].
      destruct (Z.ltb_spec (now - t) 86400000); [lia|].
      destruct (Z.ltb_spec (now - t) 604800000); [reflexivity | lia].
    + apply Z.div_le_lower_bound; lia.
    + assert ((now - t) / 86400000 < 7)%Z by (apply Z.div_lt_upper_bound; lia). lia.
  - destruct (Z.ltb_spec (now - t) 60000); [lia|].
    destruct (Z.ltb_spec (now - t) 3600000); [lia|].
    destruct (Z.ltb_spec (now - t) 86400000); [lia|].
    destruct (Z.ltb_spec (now - t) 604800000); [lia | reflexivity].
Qed.

(** ** Conversations *)

Lemma insert_desc_In m l x : In x (insert_desc m l) <-> x = m \/ In x l.
Proof.
  induction l as [|y l IH]; cbn [insert_desc].
  - cbn; intuition.
  - destruct (created_at m <? created_at y)%Z; cbn [In]; [rewrite IH|]; intuition.
Qed.

Lemma order_by_created_at_desc_In l x :
  In x (order_by_created_at_desc l) <-> In x l.
Proof.
  unfold order_by_created_at_desc. induction l as [|y l IH]; cbn [fold_right]; [tauto|].
  rewrite insert_desc_In, IH. cbn; intuition.
Qed.

Lemma insert_desc_sorted m l :
  StronglySorted newer_first l -> StronglySorted newer_first (insert_desc m l).
Proof.
  induction l as [|y l IH]; cbn [insert_desc]; intros H.
  - repeat constructor.
  - inversion H as [|? ? Hl Hy]; subst.
    destruct (Z.ltb_spec (created_at m) (created_at y)) as [Hlt|Hge].
    + constructor; [apply IH, Hl|].
      apply Forall_forall. intros x Hx. apply insert_desc_In in Hx as [->|Hx].
      * unfold newer_first; lia.
      * rewrite Forall_forall in Hy. apply Hy, Hx.
    + constructor; [exact H|].
      constructor; [unfold newer_first; lia|].
      rewrite Forall_forall in Hy |- *. intros x Hx. specialize (Hy x Hx).
      unfold newer_first in *; lia.
Qed.

Lemma order_by_created_at_desc_sorted l :
  StronglySorted newer_first (order_by_created_at_desc l).
Proof.
  unfold order_by_created_at_desc. induction l as [|y l IH]; cbn [fold_right].
  - constructor.
  - apply insert_desc_sorted, IH.
Qed.

Lemma perform_conversations_loop me s msgs :
  forall acc, perform me (conversations_loop me msgs acc) s
              = (conversations_from (tables s) me msgs acc, s).
Proof.
  induction msgs as [|m rest IH]; intros acc; [reflexivity|].
  cbn [conversations_loop conversations_from].
  destruct (Map_has (otherUserId me m) acc); [apply IH|].
  cbn [perform answer].
  destruct (data (select_profile (otherUserId me m) (tables s))); apply IH.
Qed.

Lemma perform_and_then_Done me {B U} (w : script B) (g : B -> U) :
  forall s, perform me (and_then w (fun b => Done (g b))) s
            = (g (fst (perform me w s)), snd (perform me w s)).
Proof.
  induction w as [b|A q k IH]; intros s; [reflexivity|].
  cbn [and_then perform]. destruct (answer me q s) as [x s1]. apply IH.
Qed.

Lemma perform_loadConversations me s :
  perform me (loadConversations me) s =
  (Completed
     (Map_values
        (conversations_from (tables s) me
           (order_by_created_at_desc
              (filter (fun m => message_party me m
                                && ((sender_id m =? me)%N || (receiver_id m =? me)%N))
                      (messages s)))
           [])), s).
Proof.
  unfold loadConversations. cbn [perform answer select_messages error data ok or_empty].
  rewrite perform_and_then_Done, perform_conversations_loop. reflexivity.
Qed.

Lemma Map_has_false {V} k (m : list (uuid * V)) :
  Map_has k m = false -> ~ In k (map fst m).
Proof.
  unfold Map_has. intros H Hin. apply in_map_iff in Hin as [e [<- He]].
  assert (Ht : existsb (fun e0 => (fst e0 =? fst e)%N) m = true).
  { apply existsb_exists. exists e. split; [exact He | apply N.eqb_refl]. }
  congruence.
Qed.

Lemma Map_has_app {V} k (m1 m2 : list (uuid * V)) :
  Map_has k (m1 ++ m2) = Map_has k m1 || Map_has k m2.
Proof. unfold Map_has. apply existsb_app. Qed.

Lemma Map_set_new {V} k (v : V) m :
  Map_has k m = false -> Map_set k v m = m ++ [(k, v)].
Proof. unfold Map_set. intros ->. reflexivity. Qed.

Lemma conversations_from_keys d me msgs :
  forall acc, NoDup (map fst acc) ->
              NoDup (map fst (conversations_from d me msgs acc)).
Proof.
  induction msgs as [|m rest IH]; intros acc H; [exact H|].
  cbn [conversations_from].
  destruct (Map_has (otherUserId me m) acc) eqn:Eh; [apply IH, H|].
  destruct (data (select_profile (otherUserId me m) d)); [|apply IH, H].
  apply IH. rewrite Map_set_new by exact Eh. rewrite map_app. cbn [map fst].
  apply NoDup_snoc; [exact H | apply Map_has_false, Eh].
Qed.

Lemma conversations_from_has d me msgs :
  forall acc k, Map_has k acc = true ->
                Map_has k (conversations_from d me msgs acc) = true.
Proof.
  induction msgs as [|m rest IH]; intros acc k H; [exact H|].
  cbn [conversations_from].
  destruct (Map_has (otherUserId me m) acc) eqn:Eh; [apply IH, H|].
  destruct (data (select_profile (otherUserId me m) d)); [|apply IH, H].
  apply IH. rewrite Map_set_new by exact Eh. rewrite Map_has_app, H. reflexivity.
Qed.

Lemma conversations_from_entries d me msgs :
  forall acc k c, In (k, c) (conversations_from d me msgs acc) ->
    In (k, c) acc
    \/ (Map_has k acc = false
        /\ exists pre m post p,
             msgs = pre ++ m :: post /\ otherUserId me m = k
             /\ (forall m', In m' pre -> otherUserId me m' <> k)
             /\ data (select_profile k d) = Some p
             /\ c = conversation_of k p m).
Proof.
  induction msgs as [|m rest IH]; intros acc k c H; [left; exact H|].
  cbn [conversations_from] in H.
  destruct (Map_has (otherUserId me m) acc) eqn:Eh.
  - destruct (IH acc k c H) as [Hin|[Hk [pre [m1 [post [p [E [Ho [Hpre [Hp Hc]]]]]]]]]];
      [left; exact Hin|].
    right. split; [exact Hk|].
    exists (m :: pre), m1, post, p. rewrite E. repeat split; auto.
    intros m' [<-|Hm']; [|apply Hpre, Hm']. intros Heq. congruence.
  - destruct (data (select_profile (otherUserId me m) d)) as [p0|] eqn:Ep.
    + rewrite Map_set_new in H by exact Eh.
      destruct (IH _ k c H) as [Hin|[Hk [pre [m1 [post [p [E [Ho [Hpre [Hp Hc]]]]]]]]]].
      * apply in_app_or in Hin as [Hin|[Hin|[]]]; [left; exact Hin|].
        inversion Hin; subst. right. split; [exact Eh|].
        exists [], m, rest, p0. repeat split; auto.
      * rewrite Map_has_app in Hk. apply orb_false_iff in Hk as [Hk Hk0].
        right. split; [exact Hk|].
        exists (m :: pre), m1, post, p. rewrite E. repeat split; auto.
        intros m' [<-|Hm']; [|apply Hpre, Hm']. intros Heq.
        cbn [Map_has existsb fst] in Hk0. rewrite Heq, N.eqb_refl in Hk0. discriminate.
    + destruct (IH acc k c H) as [Hin|[Hk [pre [m1 [post [p [E [Ho [Hpre [Hp Hc]]]]]]]]]];
        [left; exact Hin|].
      right. split; [exact Hk|].
      exists (m :: pre), m1, post, p. rewrite E. repeat split; auto.
      intros m' [<-|Hm']; [|apply Hpre, Hm']. intros Heq. congruence.
Qed.

Lemma conversations_from_complete d me msgs :
  forall acc m, In m msgs -> data (select_profile (otherUserId me m) d) <> None ->
                Map_has (otherUserId me m) (conversations_from d me msgs acc) = true.
Proof.
  induction msgs as [|m0 rest IH]; intros acc m Hin Hp; [contradiction|].
  cbn [conversations_from]. destruct Hin as [->|Hin].
  - destruct (Map_has (otherUserId me m) acc) eqn:Eh;
      [apply conversations_from_has, Eh|].
    destruct (data (select_profile (otherUserId me m) d)); [|congruence].
    apply conversations_from_has. rewrite Map_set_new by exact Eh.
    rewrite Map_has_app. cbn [Map_has existsb fst]. rewrite N.eqb_refl.
    apply orb_true_iff; right; reflexivity.
  - destruct (Map_has (otherUserId me m0) acc); [apply IH; assumption|].
    destruct (data (select_profile (otherUserId me m0) d)); apply IH; assumption.
Qed.

Lemma conversations_from_sorted d me msgs :
  StronglySorted newer_first msgs ->
  forall acc,
    StronglySorted newer_conversation_first (map snd acc) ->
    (forall e m, In e acc -> In m msgs ->
                 (created_at m <= lm_created_at (last_message (snd e)))%Z) ->
    StronglySorted newer_conversation_first
      (map snd (conversations_from d me msgs acc)).
Proof.
  induction msgs as [|m rest IH]; intros Hs acc Hacc Hb; [exact Hacc|].
  inversion Hs as [|? ? Hrest Hm]; subst. rewrite Forall_forall in Hm.
  assert (Hb' : forall e m0, In e acc -> In m0 rest ->
                  (created_at m0 <= lm_created_at (last_message (snd e)))%Z).
  { intros e m0 He Hm0. apply Hb; [exact He | right; exact Hm0]. }
  cbn [conversations_from].
  destruct (Map_has (otherUserId me m) acc) eqn:Eh; [apply IH; assumption|].
  destruct (data (select_profile (otherUserId me m) d)) as [p|]; [|apply IH; assumption].
  rewrite Map_set_new by exact Eh. apply IH; [exact Hrest| |].
  - rewrite map_app. cbn [map snd].
    clear IH Hb'. induction acc as [|e acc IHa]; cbn [map app].
    + repeat constructor.
    + cbn [map] in Hacc. inversion Hacc as [|? ? Hsa Hfa]; subst.
      constructor.
      * apply IHa; [exact Hsa| |].
        -- intros e0 m0 He0. apply Hb; right; exact He0.
        -- unfold Map_has in *. cbn [existsb] in Eh.
           apply orb_false_iff in Eh as [_ Eh]. exact Eh.
      * apply Forall_app; split; [exact Hfa|].
        constructor; [|constructor].
        unfold newer_conversation_first, conversation_of; cbn [last_message lm_created_at].
        apply (Hb e m); left; reflexivity.
  - intros e m0 He Hm0. apply in_app_or in He as [He|[<-|[]]].
    + apply Hb'; assumption.
    + cbn [snd conversation_of last_message lm_created_at]. apply (Hm m0 Hm0).
Qed.

Lemma otherUserId_exchanged me k m :
  message_party me m = true -> (otherUserId me m = k <-> exchanged me k m).
Proof.
  unfold message_party, otherUserId, exchanged. intros Hp.
  destruct (N.eqb_spec (sender_id m) me) as [Es|Es].
  - split; [intros <-; left; split; [exact Es | reflexivity]|].
    intros [[_ H]|[H1 H2]]; [exact H | congruence].
  - apply orb_true_iff in Hp as [Hp|Hp]; apply N.eqb_eq in Hp; [congruence|].
    split; [intros <-; right; split; [reflexivity | congruence]|].
    intros [[H _]|[H _]]; [congruence | exact H].
Qed.

Lemma visible_messages me s m :
  In m (order_by_created_at_desc
          (filter (fun m => message_party me m
                            && ((sender_id m =? me)%N || (receiver_id m =? me)%N))
                  (messages s)))
  <-> In m (messages s) /\ message_party me m = true.
Proof.
  rewrite order_by_created_at_desc_In, filter_In.
  split; intros [H1 H2]; split; auto.
  - apply andb_true_iff in H2 as [H2 _]. exact H2.
  - rewrite H2. unfold message_party in H2. cbn [andb].
    apply orb_true_iff in H2 as [H|H]; apply N.eqb_eq in H;
      rewrite <- H, N.eqb_refl, ?orb_true_r; reflexivity.
Qed.

Lemma StronglySorted_split {A} (R : A -> A -> Prop) pre x post y :
  StronglySorted R (pre ++ x :: post) -> In y post -> R x y.
Proof.
  induction pre as [|z pre IH]; cbn [app]; intros H Hy.
  - inversion H as [|? ? _ Hf]; subst. rewrite Forall_forall in Hf. apply Hf, Hy.
  - inversion H; subst. apply IH; assumption.
Qed.

(** X16. The conversation list of the chat screen. [loadConversations]
    completes with one conversation per partner (no partner twice); each
    one carries the profile whose id is the partner's, and its preview is a
    message of the store exchanged between the user and that partner that
    is at least as new as every other message exchanged between them. *)
Theorem conversations_show_the_newest_message (me : uuid) (s : store) :
  exists convs,
    fst (perform me (loadConversations me) s) = Completed convs
    /\ snd (perform me (loadConversations me) s) = s
    /\ NoDup (map conv_id convs)
    /\ forall c, In c convs ->
         p_id (other_user c) = conv_id c
         /\ In (other_user c) (profiles (tables s))
         /\ exists m,
              In m (messages s) /\ exchanged me (conv_id c) m
              /\ last_message c = {| lm_content := content m;
                                     lm_created_at := created_at m;
                                     lm_read := read m |}
              /\ forall m', In m' (messages s) -> exchanged me (conv_id c) m' ->
                            (created_at m' <= created_at m)%Z.
Proof.
  rewrite perform_loadConversations. cbn [fst snd].
  set (msgs := order_by_created_at_desc _).
  set (res := conversations_from (tables s) me msgs []).
  assert (Hent : forall k c, In (k, c) res ->
            exists pre m post p,
              msgs = pre ++ m :: post /\ otherUserId me m = k
              /\ (forall m', In m' pre -> otherUserId me m' <> k)
              /\ data (select_profile k (tables s)) = Some p
              /\ c = conversation_of k p m).
  { intros k c H. destruct (conversations_from_entries _ _ _ _ _ _ H) as [[]|[_ H']].
    exact H'. }
  assert (Hkeys : map conv_id (Map_values res) = map fst res).
  { unfold Map_values. rewrite map_map. apply map_ext_in. intros [k c] Hin.
    destruct (Hent k c Hin) as [pre [m [post [p [_ [_ [_ [_ ->]]]]]]]]. reflexivity. }
  eexists. split; [reflexivity|]. split; [reflexivity|]. split.
  - rewrite Hkeys. apply conversations_from_keys. constructor.
  - intros c Hc. unfold Map_values in Hc. apply in_map_iff in Hc as [[k c'] [Ec Hin]].
    cbn [snd] in Ec. subst c'.
    destruct (Hent k c Hin) as [pre [m [post [p [E [Ho [Hpre [Hp ->]]]]]]]].
    cbn [conv_id other_user last_message conversation_of].
    assert (Hm : In m (messages s) /\ message_party me m = true).
    { apply visible_messages. fold msgs. rewrite E. apply in_or_app; right; left;
        reflexivity. }
    assert (Hpin : In p (filter (fun p0 => (p_id p0 =? k)%N) (profiles (tables s)))).
    { unfold select_profile in Hp.
      destruct (filter (fun p0 => (p_id p0 =? k)%N) (profiles (tables s)))
        as [|p1 [|p2 l]]; cbn in Hp; try discriminate.
      inversion Hp; left; reflexivity. }
    apply filter_In in Hpin as [Hpin Hpid]. apply N.eqb_eq in Hpid.
    split; [exact Hpid|]. split; [exact Hpin|].
    exists m. split; [apply Hm|].
    split; [apply (otherUserId_exchanged me k m (proj2 Hm)), Ho|].
    split; [reflexivity|].
    intros m' Hm' Hex.
    assert (Hparty : message_party me m' = true).
    { unfold message_party. destruct Hex as [[H _]|[_ H]]; rewrite H, N.eqb_refl,
        ?orb_true_r; reflexivity. }
    assert (Hin' : In m' msgs) by (apply visible_messages; split; assumption).
    rewrite E in Hin'. apply in_app_or in Hin' as [Hin'|[<-|Hin']].
    + exfalso. apply (Hpre m' Hin'). apply (otherUserId_exchanged me k m' Hparty), Hex.
    + lia.
    + assert (Hs : StronglySorted newer_first (pre ++ m :: post)).
      { rewrite <- E. apply order_by_created_at_desc_sorted. }
      apply (StronglySorted_split newer_first pre m post m' Hs Hin').
Qed.

(** X17. The conversation list is complete and ordered. Every message of
    the store that the user sent or received, whose other party has a
    (single) profile, has its conversation in the list, with that profile;
    and the conversations come newest preview first. *)
Theorem conversations_are_complete_and_ordered (me : uuid) (s : store) :
  exists convs,
    fst (perform me (loadConversations me) s) = Completed convs
    /\ StronglySorted newer_conversation_first convs
    /\ forall m p, In m (messages s) -> message_party me m = true ->
         filter (fun p0 => (p_id p0 =? otherUserId me m)%N) (profiles (tables s)) = [p] ->
         exists c, In c convs /\ conv_id c = otherUserId me m /\ other_user c = p.
Proof.
  rewrite perform_loadConversations. cbn [fst].
  set (msgs := order_by_created_at_desc _).
  set (res := conversations_from (tables s) me msgs []).
  eexists. split; [reflexivity|]. split.
  - apply conversations_from_sorted.
    + apply order_by_created_at_desc_sorted.
    + constructor.
    + intros e m [].
  - intros m p Hm Hparty Hprof.
    assert (Hin : In m msgs) by (apply visible_messages; split; assumption).
    assert (Hp : data (select_profile (otherUserId me m) (tables s)) = Some p).
    { unfold select_profile. rewrite Hprof. reflexivity. }
    assert (Hhas : Map_has (otherUserId me m) res = true).
    { apply conversations_from_complete; [exact Hin | congruence]. }
    unfold Map_has in Hhas. apply existsb_exists in Hhas as [[k c] [Hkc Hk]].
    cbn [fst] in Hk. apply N.eqb_eq in Hk. subst k.
    destruct (conversations_from_entries _ _ _ _ _ _ Hkc) as [[]|[_ H']].
    destruct H' as [pre [m1 [post [p1 [_ [_ [_ [Hp1 ->]]]]]]]].
    exists (conversation_of (otherUserId me m) p1 m1). split.
    + unfold Map_values. apply in_map_iff. eexists; split; [|exact Hkc]. reflexivity.
    + cbn [conv_id other_user conversation_of]. split; [reflexivity | congruence].
Qed.

(** ** Counters under concurrency, and the cost of a search *)

(** X18. No counter becomes negative under concurrency either: from a
    store whose counters are not negative, whatever handlers or other
    programs the sessions run and however their requests interleave. *)
Theorem counters_stay_nonneg_interleaved (d : db) :
  counts_nonneg d ->
  forall B schedule (ss : list (session B)),
    counts_nonneg (snd (interleave schedule ss d)).
Proof.
  intros Hd B schedule. revert d Hd.
  induction schedule as [|i rest IH]; intros d Hd ss; cbn [interleave]; [exact Hd|].
  destruct (nth_error ss i) as [[me p]|]; [|apply IH, Hd].
  unfold step; cbn [fst snd].
  destruct p as [b|A r k]; [apply IH, Hd|].
  pose proof (exec_counts_nonneg me r d Hd) as He.
  destruct (exec me r d) as [x d']; cbn [snd] in He.
  apply IH, He.
Qed.

Lemma requests_sent_with_status me ps :
  forall d, requests_sent me (with_status me ps) d = List.length ps.
Proof.
  assert (Hb : forall (w : prog (list Friend)) (g : list Friend -> list Friend) d0,
             requests_sent me (bind w (fun fs => Ret (g fs))) d0
             = requests_sent me w d0).
  { intros w g; induction w as [b|A r k IHw]; intros d0; [reflexivity|].
    cbn [bind requests_sent]. destruct (exec me r d0) as [x d1]. rewrite IHw; reflexivity. }
  induction ps as [|p rest IH]; intros d; [reflexivity|].
  cbn [with_status requests_sent exec List.length]. rewrite Hb, IH. reflexivity.
Qed.

(** X19. The cost of a search: [searchUsers] sends no request for a blank
    query and otherwise one request for the profiles plus one per profile
    found, at most 21 in all. *)
Theorem searchUsers_sends_at_most_21_requests (me : uuid) (q : text) (d : db) :
  (requests_sent me (searchUsers me q) d <= 21)%nat
  /\ (is_blank q = true -> requests_sent me (searchUsers me q) d = 0%nat)
  /\ (forall fs, is_blank q = false ->
        fst (run me (searchUsers me q) d) = Completed fs ->
        requests_sent me (searchUsers me q) d = S (List.length fs)).
Proof.
  assert (Hb : forall (w : prog (list Friend)) d0,
             requests_sent me (fs <- w ;; Ret (Completed fs)) d0
             = requests_sent me w d0).
  { intros w; induction w as [b|A r k IHw]; intros d0; [reflexivity|].
    cbn [bind requests_sent]. destruct (exec me r d0) as [x d1]. rewrite IHw; reflexivity. }
  unfold searchUsers. destruct (is_blank q).
  - cbn [requests_sent]. repeat split; [lia | discriminate].
  - cbn [requests_sent run exec]. unfold select_profiles_ilike.
    destruct (breaks_or_filter q); cbn [error data failed ok or_empty requests_sent run fst].
    + repeat split; [lia | discriminate | discriminate].
    + rewrite Hb, requests_sent_with_status, run_then_Completed.
      match goal with |- context [with_status me ?l] => set (ps := l) end.
      destruct (with_status_profiles me ps d) as [E1 _]. rewrite E1. cbn [fst].
      assert (Hlen : (List.length ps <= 20)%nat) by (apply firstn_le_length).
      repeat split; [lia | discriminate|].
      intros fs _ E. inversion E; subst. rewrite length_map. reflexivity.
Qed.

End MoreProperties.

(** * The further properties on the example data *)

Lemma likes_stay_unique_witness :
  likes_unique db0
  /\ likes_unique (snd (run 1 (handleLike 1 100 false) db0)).
Proof.
  assert (H : likes_unique db0) by constructor.
  split; [exact H|].
  exact (proj1 (likes_stay_unique db0 H) 1 _ (handleLike 1 100 false)).
Defined.

Lemma friendships_stay_unique_witness :
  friendships_unique (with_friendships [pending_1_2])
  /\ friendships_unique
       (snd (run 2 (sendFriendRequest 2 1) (with_friendships [pending_1_2]))).
Proof.
  assert (H : friendships_unique (with_friendships [pending_1_2])).
  { repeat constructor. intros []. }
  split; [exact H|].
  exact (proj1 (friendships_stay_unique _ H) 2 _ (sendFriendRequest 2 1)).
Defined.

Lemma references_keep_holding_witness :
  references_hold (with_friendships [accepted_1_2])
  /\ references_hold
       (snd (run 3 (handleLike 3 100 false) (with_friendships [accepted_1_2]))).
Proof.
  assert (H : references_hold (with_friendships [accepted_1_2])).
  { split.
    - intros r [<-|[]]. split; reflexivity.
    - intros r []. }
  split; [exact H|].
  exact (proj1 (references_keep_holding _ H) 3 _ (handleLike 3 100 false)).
Defined.

Lemma increment_then_decrement_witness :
  snd (decrement_likes 1 100 (snd (increment_likes 1 100 db0))) = db0.
Proof.
  apply (increment_then_decrement 1 100 db0).
  intros r [<-|[]] _. exists 0%Z. split; [reflexivity | unfold int4_max; lia].
Defined.

Lemma request_accept_listed_witness :
  has_profile db0 1 = true /\ has_profile db0 2 = true
  /\ friendship_pair_taken db0 1 2 = false
  /\ exists pA pB requests friends,
       find_profile db0 1 = Some pA /\ find_profile db0 2 = Some pB
       /\ fst (run 2 (loadRequests 2) (snd (run 1 (sendFriendRequest 1 2) db0)))
          = Completed requests
       /\ In {| profile := pA; friendship_id := Some (next_uuid db0);
                Friend_status := Some "pending" |} requests
       /\ fst (run 1 (loadFriends 1)
                 (snd (run 2 (acceptRequest 2 (next_uuid db0))
                         (snd (run 1 (sendFriendRequest 1 2) db0)))))
          = Completed friends
       /\ In {| profile := pB; friendship_id := Some (next_uuid db0);
                Friend_status := None |} friends.
Proof.
  split; [reflexivity|]. split; [reflexivity|]. split; [reflexivity|].
  exact (request_accept_listed 1 2 db0 eq_refl eq_refl eq_refl).
Defined.

Lemma add_button_keeps_one_record_witness :
  add_disabled (annotate (with_friendships [pending_1_2]) 1 carol) = false
  /\ one_record_per_pair
       (snd (run 1 (sendFriendRequest 1 3) (with_friendships [pending_1_2]))).
Proof.
  split; [reflexivity|].
  assert (Hone : one_record_per_pair (with_friendships [pending_1_2])).
  { intros a b. cbn [with_friendships friendships set_friendships filter].
    destruct (between a b pending_1_2); cbn; lia. }
  assert (Hknown : statuses_known (with_friendships [pending_1_2])).
  { intros r [<-|[]]. left; reflexivity. }
  exact (proj2 (add_button_keeps_one_record 1 (text_of_string "c")
                  (with_friendships [pending_1_2])
                  [annotate (with_friendships [pending_1_2]) 1 carol]
                  (annotate (with_friendships [pending_1_2]) 1 carol)
                  Hone Hknown eq_refl (or_introl eq_refl) eq_refl)).
Defined.

Lemma friend_button_keeps_one_record_witness :
  fst (perform 2 (loadUserProfile 2 1 mounted)
         (no_messages (with_friendships [pending_1_2])))
  = Completed {| userProfile := Some alice; friendshipStatus := Some "pending";
                 friendshipId := Some 1000;
                 stats := {| stat_posts := 1; stat_friends := 0 |} |}
  /\ requests_sent 2 (handleFriendAction 2 1 (Some "pending") (Some 1000))
                   (with_friendships [pending_1_2]) = 0%nat.
Proof.
  split; [reflexivity|].
  assert (Hone : one_record_per_pair (with_friendships [pending_1_2])).
  { intros a b. cbn [with_friendships friendships set_friendships filter].
    destruct (between a b pending_1_2); cbn; lia. }
  assert (Hknown : statuses_known (with_friendships [pending_1_2])).
  { intros r [<-|[]]. left; reflexivity. }
  exact (proj2 (friend_button_keeps_one_record 2 1
                  (no_messages (with_friendships [pending_1_2]))
                  {| userProfile := Some alice; friendshipStatus := Some "pending";
                     friendshipId := Some 1000;
                     stats := {| stat_posts := 1; stat_friends := 0 |} |}
                  Hone Hknown eq_refl) eq_refl).
Defined.

Lemma reload_keeps_the_friendship_state_witness :
  exists scr',
    fst (perform 2 (loadUserProfile 2 1
           {| userProfile := Some alice; friendshipStatus := Some "pending";
              friendshipId := Some 1000;
              stats := {| stat_posts := 1; stat_friends := 0 |} |})
           (no_messages db0)) = Completed scr'
    /\ friendshipStatus scr' = Some "pending"
    /\ friendshipId scr' = Some 1000.
Proof.
  destruct (reload_keeps_the_friendship_state 2 1 (no_messages db0)
              {| userProfile := Some alice; friendshipStatus := Some "pending";
                 friendshipId := Some 1000;
                 stats := {| stat_posts := 1; stat_friends := 0 |} |}
              eq_refl eq_refl) as [scr' [H1 [H2 [H3 _]]]].
  exists scr'. repeat split; assumption.
Defined.

Lemma friends_stat_of_others_witness :
  exists st,
    fst (perform 3 (loadStats 1) (no_messages (with_friendships [accepted_1_2])))
    = Completed st
    /\ (stat_friends st <= 1)%nat.
Proof.
  assert (Hu : friendships_unique (with_friendships [accepted_1_2])).
  { repeat constructor. intros []. }
  assert (Hne : 3 <> 1) by discriminate.
  destruct (friends_stat_of_others 3 1 (no_messages (with_friendships [accepted_1_2]))
              Hne Hu) as [st [H1 [H2 _]]].
  exists st. split; assumption.
Defined.

Lemma friends_stat_is_friends_tab_witness :
  exists st fs,
    fst (perform 1 (loadStats 1) (no_messages (with_friendships [accepted_1_2])))
    = Completed st
    /\ fst (run 1 (loadFriends 1) (with_friendships [accepted_1_2])) = Completed fs
    /\ stat_friends st = List.length fs.
Proof.
  apply (friends_stat_is_friends_tab 1 (no_messages (with_friendships [accepted_1_2]))).
  split.
  - intros r [<-|[]]. split; reflexivity.
  - intros r [].
Defined.

Lemma like_unlike_round_trip_witness :
  fst (perform 2 (liked_by_user_of 2 100)
         (no_messages (snd (run 2 (handleLike 2 100 false) db0)))) = true
  /\ likes (snd (run 2 (handleLike 2 100 true)
                   (snd (run 2 (handleLike 2 100 false) db0)))) = likes db0.
Proof.
  destruct (like_unlike_round_trip 2 100 db0 eq_refl eq_refl eq_refl)
    as [_ [H1 [_ H2]]].
  split; assumption.
Defined.

Lemma toggle_like_twice_witness :
  toggle_like 100 true
    (toggle_like 100 false
       [{| Post_id := 100; Post_likes_count := 0; liked_by_user := false |}])
  = [{| Post_id := 100; Post_likes_count := 0; liked_by_user := false |}].
Proof.
  apply (toggle_like_twice 100 false).
  intros post [<-|[]] _. reflexivity.
Defined.

Lemma formatTime_by_age_witness :
  formatTime iso_date (Some 0%Z) 90000%Z = "1m ago"
  /\ formatTime iso_date (Some 90000%Z) 0%Z = "Just now".
Proof.
  split.
  - apply (proj1 (proj2 (formatTime_by_age iso_date 0 90000))). lia.
  - apply (proj1 (formatTime_by_age iso_date 90000 0)). lia.
Defined.

Lemma conversations_show_the_newest_message_witness :
  exists convs,
    fst (perform 1 (loadConversations 1) chats) = Completed convs
    /\ NoDup (map conv_id convs).
Proof.
  destruct (conversations_show_the_newest_message 1 chats) as [convs [H [_ [Hn _]]]].
  exists convs. split; assumption.
Defined.

Lemma conversations_are_complete_and_ordered_witness :
  exists c, In c [conversation_of 2 bob reply; conversation_of 3 carol note]
            /\ conv_id c = 2 /\ other_user c = bob.
Proof.
  destruct (conversations_are_complete_and_ordered 1 chats) as [convs [H [_ Hc]]].
  assert (E : convs = [conversation_of 2 bob reply; conversation_of 3 carol note]).
  { cbv in H. inversion H. reflexivity. }
  rewrite <- E. exact (Hc hello bob (or_introl eq_refl) eq_refl eq_refl).
Defined.

Lemma counters_stay_nonneg_interleaved_witness :
  counts_nonneg db0
  /\ counts_nonneg
       (snd (interleave [0; 1; 1; 0]%nat
               [ (1, handleLike 1 100 true); (2, handleLike 2 100 true) ] db0)).
Proof.
  assert (H : counts_nonneg db0) by (repeat constructor; simpl; lia).
  split; [exact H|].
  exact (counters_stay_nonneg_interleaved db0 H _ [0; 1; 1; 0]%nat
           [ (1, handleLike 1 100 true); (2, handleLike 2 100 true) ]).
Defined.

Lemma searchUsers_sends_at_most_21_requests_witness :
  requests_sent 1 (searchUsers 1 (text_of_string " ")) db0 = 0%nat
  /\ requests_sent 1 (searchUsers 1 (text_of_string "o")) db0 = 3%nat.
Proof.
  split.
  - exact (proj1 (proj2 (searchUsers_sends_at_most_21_requests
                           1 (text_of_string " ") db0)) eq_refl).
  - exact (proj2 (proj2 (searchUsers_sends_at_most_21_requests
                           1 (text_of_string "o") db0))
             [annotate db0 1 bob; annotate db0 1 carol] eq_refl eq_refl).
Defined.
